(** * The microservice client layer of the EdgExpo backend

    A shallow embedding of [Backend/backend/services/microservice_client.py]
    (retry decorator, resilient session, the four service clients) and of the
    health endpoints and lazy singletons of [Backend/backend/app.py].

    Python code with side effects is written in a state-and-exception monad
    [M] over a [world] that records what the outside does (the requests
    library, the OpenAI client, the file system) and what the code did to it
    (calls made, seconds slept, files written, module globals). *)

From Stdlib Require Import QArith.
From stdpp Require Import gmap strings list fin_maps pretty.

Set Warnings "-register-all".
Close Scope Q_scope.
Open Scope Z_scope.

(** ** Python values *)

(** Decoded JSON, which is also the shape of every dictionary the clients
    build themselves.  Numbers are rationals: no claim below computes with
    them, they are only carried around. *)
Inductive json : Type :=
| JNull
| JBool (b : bool)
| JNum (q : Q)
| JStr (s : string)
| JArr (l : list json)
| JObj (d : gmap string json).

(** Exception classes that the modelled code raises, catches or tells apart.
    All of them derive from Python's [Exception], so [except Exception]
    catches each one.  The [requests] ones keep their subclass structure,
    since the handlers of [with_retry] and [ServiceSession.request] select
    on it. *)
Inductive exn_class : Type :=
| E_Exception          (* raise Exception("...") *)
| E_AttributeError
| E_TypeError
| E_ValueError
| E_OverflowError
| E_IndexError
| E_KeyError
| E_OSError            (* open() failing *)
| E_OpenAIError        (* anything the OpenAI client raises *)
| E_RequestException   (* requests.exceptions.RequestException itself *)
| E_Timeout
| E_ConnectTimeout     (* subclass of ConnectionError and of Timeout *)
| E_ReadTimeout
| E_ConnectionError
| E_SSLError
| E_HTTPError
| E_RetryError
| E_TooManyRedirects
| E_InvalidJSONError.  (* requests' JSONDecodeError derives from it *)

(** [isinstance(e, requests.exceptions.Timeout)] and its siblings. *)
Definition is_Timeout (c : exn_class) : bool :=
  match c with
  | E_Timeout | E_ConnectTimeout | E_ReadTimeout => true
  | _ => false
  end.

Definition is_ConnectionError (c : exn_class) : bool :=
  match c with
  | E_ConnectionError | E_ConnectTimeout | E_SSLError => true
  | _ => false
  end.

Definition is_HTTPError (c : exn_class) : bool :=
  match c with
  | E_HTTPError => true
  | _ => false
  end.

Definition is_RequestException (c : exn_class) : bool :=
  match c with
  | E_RequestException | E_Timeout | E_ConnectTimeout | E_ReadTimeout
  | E_ConnectionError | E_SSLError | E_HTTPError | E_RetryError
  | E_TooManyRedirects | E_InvalidJSONError => true
  | _ => false
  end.

(** An exception object: its class, [str(e)], and for an [HTTPError] the
    status code of [e.response] when a response is attached. *)
Record exn : Type := Exn {
  exn_cls : exn_class;
  exn_str : string;
  exn_response : option Z
}.

(** [Exception(msg)] *)
Definition Exception (msg : string) : exn := Exn E_Exception msg None.

Inductive result (A : Type) : Type :=
| Ok (a : A)
| Raise (e : exn).
Arguments Ok {A} a.
Arguments Raise {A} e.

(** ** The outside world *)

(** A [requests.Response]: status code, raw body, and what [.json()] does
    on it (the decoded value, or the decoding error it raises). *)
Record response : Type := Response {
  status_code : Z;
  content : string;
  json_body : result json
}.

(** The arguments of one outbound HTTP call. *)
Record http_request : Type := HttpRequest {
  req_method : string;
  req_url : string;
  req_timeout : Z;
  req_files : list (string * string);   (* files={'audio': f}, by path *)
  req_data : option json;               (* data=... *)
  req_json : option json                (* json=... *)
}.

Record world : Type := World {
  (** what the requests library does on its i-th call: a response (after
      its own transport-level retries) or an exception *)
  net : nat → http_request → result response;
  net_calls : nat;
  (** the OpenAI client: ids of [models.list().data], and the message
      contents of the choices of [chat.completions.create(...)] *)
  oai_models : nat → result (list string);
  oai_chat : nat → result (list string);
  oai_calls : nat;
  (** paths on which [open(path, 'rb')] succeeds *)
  readable : string → bool;
  (** temporary files written so far, newest first *)
  tmp_files : list (string * string);
  (** arguments of the [time.sleep] calls so far, oldest first *)
  slept : list Q;
  (** invocations of a scripted operation (see [scripted]) *)
  invocations : nat;
  (** module globals of app.py, and the number of service objects built *)
  rag_service : option nat;
  crm_service : option nat;
  constructed : nat;
  (** what the i-th run of a service constructor does, returning ([None])
      or raising, and the number of runs so far *)
  constructor_fault : nat → option exn;
  constructor_runs : nat
}.

Definition set_net_calls (n : nat) (w : world) : world :=
  World (net w) n (oai_models w) (oai_chat w) (oai_calls w) (readable w)
        (tmp_files w) (slept w) (invocations w) (rag_service w)
        (crm_service w) (constructed w) (constructor_fault w)
        (constructor_runs w).

Definition set_oai_calls (n : nat) (w : world) : world :=
  World (net w) (net_calls w) (oai_models w) (oai_chat w) n (readable w)
        (tmp_files w) (slept w) (invocations w) (rag_service w)
        (crm_service w) (constructed w) (constructor_fault w)
        (constructor_runs w).

Definition set_tmp_files (l : list (string * string)) (w : world) : world :=
  World (net w) (net_calls w) (oai_models w) (oai_chat w) (oai_calls w)
        (readable w) l (slept w) (invocations w) (rag_service w)
        (crm_service w) (constructed w) (constructor_fault w)
        (constructor_runs w).

Definition set_slept (l : list Q) (w : world) : world :=
  World (net w) (net_calls w) (oai_models w) (oai_chat w) (oai_calls w)
        (readable w) (tmp_files w) l (invocations w) (rag_service w)
        (crm_service w) (constructed w) (constructor_fault w)
        (constructor_runs w).

Definition set_invocations (n : nat) (w : world) : world :=
  World (net w) (net_calls w) (oai_models w) (oai_chat w) (oai_calls w)
        (readable w) (tmp_files w) (slept w) n (rag_service w)
        (crm_service w) (constructed w) (constructor_fault w)
        (constructor_runs w).

Definition set_services (rag crm : option nat) (k : nat) (w : world) : world :=
  World (net w) (net_calls w) (oai_models w) (oai_chat w) (oai_calls w)
        (readable w) (tmp_files w) (slept w) (invocations w) rag crm k
        (constructor_fault w) (constructor_runs w).

Definition set_constructor_runs (n : nat) (w : world) : world :=
  World (net w) (net_calls w) (oai_models w) (oai_chat w) (oai_calls w)
        (readable w) (tmp_files w) (slept w) (invocations w) (rag_service w)
        (crm_service w) (constructed w) (constructor_fault w) n.

(** ** The monad *)

Definition M (A : Type) : Type := world → result A * world.

#[global] Instance M_ret : MRet M := λ A a w, (Ok a, w).

#[global] Instance M_bind : MBind M := λ A B f m w,
  match m w with
  | (Ok a, w') => f a w'
  | (Raise e, w') => (Raise e, w')
  end.

Definition mraise {A} (e : exn) : M A := λ w, (Raise e, w).

(** [try: body  except <handler>] where the handler sees every exception
    and re-raises the ones no clause matches. *)
Definition try_except {A} (body : M A) (handler : exn → M A) : M A := λ w,
  match body w with
  | (Ok a, w') => (Ok a, w')
  | (Raise e, w') => handler e w'
  end.

Definition lift_result {A} (r : result A) : M A := λ w, (r, w).

(** ** Primitive effects *)

(** The interpreter keeps a length of time as a signed 64-bit count of
    nanoseconds, rounded away from zero; the bounds are compared here in
    exact arithmetic. *)
Definition PyTime_MIN : Z := - 2 ^ 63.
Definition PyTime_MAX : Z := 2 ^ 63 - 1.

Definition fits_PyTime_t (secs : Q) : bool :=
  Qle_bool (inject_Z PyTime_MIN) (secs * inject_Z (10 ^ 9))
  && Qle_bool (secs * inject_Z (10 ^ 9)) (inject_Z PyTime_MAX).

(** [time.sleep(secs)]: the length is first converted to nanoseconds, an
    OverflowError when it does not fit; a negative length is then a
    ValueError. *)
Definition time_sleep (secs : Q) : M unit := λ w,
  if negb (fits_PyTime_t secs) then
    (Raise (Exn E_OverflowError "timestamp too large to convert to C _PyTime_t"
                None), w)
  else if Qle_bool 0 secs
  then (Ok (), set_slept (slept w ++ [secs]) w)
  else (Raise (Exn E_ValueError "sleep length must be non-negative" None), w).

(** One call into the requests library: [session.request], [requests.get]
    or [requests.post]. *)
Definition requests_request (req : http_request) : M response := λ w,
  (net w (net_calls w) req, set_net_calls (S (net_calls w)) w).

(** [response.raise_for_status()] *)
Definition raise_for_status (r : response) : M unit :=
  if bool_decide (400 ≤ status_code r < 500) then
    mraise (Exn E_HTTPError (pretty (status_code r) +:+ " Client Error")
                (Some (status_code r)))
  else if bool_decide (500 ≤ status_code r < 600) then
    mraise (Exn E_HTTPError (pretty (status_code r) +:+ " Server Error")
                (Some (status_code r)))
  else mret ().

(** [open(path, 'rb')]; the text of the error is that of a missing file,
    without its errno. *)
Definition open_rb (path : string) : M unit := λ w,
  if readable w path then (Ok (), w)
  else (Raise (Exn E_OSError ("No such file or directory: " +:+ path) None), w).

(** [type(value).__name__] of a decoded JSON value; a number without a
    fractional part stands for an [int]. *)
Definition py_type_name (v : json) : string :=
  match v with
  | JNull => "NoneType"
  | JBool _ => "bool"
  | JNum q => if bool_decide (Qden (Qred q) = 1%positive) then "int" else "float"
  | JStr _ => "str"
  | JArr _ => "list"
  | JObj _ => "dict"
  end.

(** [value.get(key)] on a decoded JSON value: only dictionaries have it. *)
Definition py_get (v : json) (key : string) : result (option json) :=
  match v with
  | JObj d => Ok (d !! key)
  | _ => Raise (Exn E_AttributeError
                    ("'" +:+ py_type_name v +:+ "' object has no attribute 'get'")
                    None)
  end.

(** [value.get(key, dflt)] *)
Definition py_get_default (v : json) (key : string) (dflt : json) : result json :=
  match py_get v key with
  | Ok o => Ok (default dflt o)
  | Raise e => Raise e
  end.

(** [x == 'literal'] for [x] the result of a [.get(key)] *)
Definition py_eq_str (x : option json) (lit : string) : bool :=
  match x with
  | Some (JStr s) => bool_decide (s = lit)
  | _ => false
  end.

(** Truth value of a decoded JSON value. *)
Definition py_truthy (v : json) : bool :=
  match v with
  | JNull => false
  | JBool b => b
  | JNum q => negb (Qeq_bool q 0)
  | JStr s => negb (bool_decide (s = ""))
  | JArr l => match l with [] => false | _ => true end
  | JObj d => match map_to_list d with [] => false | _ => true end
  end.

(** The number of bytes of the UTF-8 character a byte begins. *)
Definition utf8_width (c : Ascii.ascii) : nat :=
  let n := Ascii.nat_of_ascii c in
  if (n <? 192)%nat then 1 else if (n <? 224)%nat then 2
  else if (n <? 240)%nat then 3 else 4.

(** [value[0]] (on a string: its first character) *)
Definition py_index0 (v : json) : result json :=
  match v with
  | JArr (x :: _) => Ok x
  | JArr [] => Raise (Exn E_IndexError "list index out of range" None)
  | JStr (String c rest) =>
      Ok (JStr (String.substring 0 (utf8_width c) (String c rest)))
  | JStr "" => Raise (Exn E_IndexError "string index out of range" None)
  | JObj _ => Raise (Exn E_KeyError "0" None)
  | _ => Raise (Exn E_TypeError
                    ("'" +:+ py_type_name v +:+ "' object is not subscriptable")
                    None)
  end.

(** ** The retry decorator

    [with_retry(max_retries, backoff_factor, status_forcelist)]; the third
    parameter is never read by the source. *)

(** [range(n)] *)
Definition py_range (n : Z) : list Z := Z.of_nat <$> seq 0 (Z.to_nat n).

(** The value of [backoff_factor * 2 ** attempt]. *)
Definition scheduled_wait (backoff_factor : Q) (attempt : Z) : Q :=
  (backoff_factor * inject_Z (2 ^ attempt))%Q.

(** [backoff_factor * (2 ** attempt)], with the float [backoff_factor] as
    a rational.  The integer [2 ** attempt] is converted to a float for
    the product, an OverflowError from [2 ** 1024] on; below that, scaling
    by a power of two adds no rounding of its own, and a product beyond
    the floats is an infinity, which like every length beyond its range
    [time.sleep] answers with an OverflowError. *)
Definition wait_time (backoff_factor : Q) (attempt : Z) : result Q :=
  if bool_decide (attempt < 1024) then Ok (scheduled_wait backoff_factor attempt)
  else Raise (Exn E_OverflowError "int too large to convert to float" None).

(** How one iteration of the [for] loop ends when it does not raise. *)
Inductive loop_exit (A : Type) : Type :=
| Returned (a : A)
| NextAttempt (last_exception : exn).
Arguments Returned {A} a.
Arguments NextAttempt {A} last_exception.

Section with_retry.
Context {A : Type}.
Variables (max_retries : Z) (backoff_factor : Q).
Variable func : M A.

(** The body of the loop: the [try] with its two [except] clauses. *)
Definition retry_attempt (attempt : Z) : M (loop_exit A) :=
  try_except (a ← func; mret (Returned a))
    (λ e,
       if is_RequestException (exn_cls e) then
         if bool_decide (attempt < max_retries) then
           wait ← lift_result (wait_time backoff_factor attempt);
           _ ← time_sleep wait;
           mret (NextAttempt e)
         else mraise e
       else mraise e).

Fixpoint retry_loop (attempts : list Z) (last_exception : option exn) : M A :=
  match attempts with
  | [] =>
      (* raise last_exception *)
      match last_exception with
      | Some e => mraise e
      | None => mraise (Exn E_TypeError
                            "exceptions must derive from BaseException" None)
      end
  | attempt :: rest =>
      x ← retry_attempt attempt;
      match x with
      | Returned a => mret a
      | NextAttempt e => retry_loop rest (Some e)
      end
  end.

Definition with_retry : M A :=
  retry_loop (py_range (max_retries + 1)) None.
End with_retry.

(** A scripted operation, the stand-in for a decorated method talking to a
    simulated backend: its i-th invocation ends as [script i] says. *)
Definition scripted {A} (script : nat → result A) : M A := λ w,
  (script (invocations w), set_invocations (S (invocations w)) w).

(** The outcomes the decorator retries on. *)
Definition transient {A} (r : result A) : bool :=
  match r with
  | Ok _ => false
  | Raise e => is_RequestException (exn_cls e)
  end.

(** The wait after this attempt can be computed and slept: the power of
    two converts to a float and the length is one [time.sleep] accepts. *)
Definition can_wait (backoff_factor : Q) (attempt : Z) : bool :=
  bool_decide (attempt < 1024)
  && fits_PyTime_t (scheduled_wait backoff_factor attempt)
  && Qle_bool 0 (scheduled_wait backoff_factor attempt).

(** The same of the waits after the attempts [0 .. k-1]. *)
Definition waits_allowed (backoff_factor : Q) (k : nat) : bool :=
  forallb (can_wait backoff_factor) (py_range (Z.of_nat k)).

(** Sleeps of a call whose first [k] attempts failed and were retried. *)
Definition backoff_schedule (backoff_factor : Q) (k : nat) : list Q :=
  scheduled_wait backoff_factor <$> py_range (Z.of_nat k).

(** ** ServiceSession *)

Module ServiceSession.

(** The statuses of the [Retry] policy mounted on the session.  The
    transport asks again on them and, when they persist, reports a
    RetryError: a response with one of them is not handed back. *)
Definition status_forcelist : list Z := [429; 500; 502; 503; 504].

(** [ServiceSession.request]: the pooled session's call followed by
    [raise_for_status], with the three [except] clauses in source order.
    An exception none of them matches passes through unchanged. *)
Definition request (service_name : string) (req : http_request) : M response :=
  try_except
    (response ← requests_request req;
     _ ← raise_for_status response;
     mret response)
    (λ e,
       if is_Timeout (exn_cls e) then
         mraise (Exception (service_name +:+ "服務請求超時"))
       else if is_ConnectionError (exn_cls e) then
         mraise (Exception (service_name +:+ "服務連接失敗"))
       else if is_HTTPError (exn_cls e) then
         match exn_response e with
         | Some code =>
             mraise (Exception (service_name +:+ "服務HTTP錯誤: " +:+ pretty code))
         | None =>
             mraise (Exn E_AttributeError
                         "'NoneType' object has no attribute 'status_code'" None)
         end
       else mraise e).

End ServiceSession.

(** A GET with no body, as the health and listing probes issue it. *)
Definition http_get (url : string) (timeout : Z) : http_request :=
  HttpRequest "GET" url timeout [] None None.

(** ** STTServiceClient *)

Module STTServiceClient.

Definition timeout : Z := 60.

Definition lang_mapping : gmap string string :=
  list_to_map [("zh-TW", "zh"); ("zh-CN", "zh"); ("zh", "zh");
               ("en-US", "en"); ("en", "en")].

(** [lang_mapping.get(language, language)] *)
Definition stt_language (language : string) : string :=
  default language (lang_mapping !! language).

(** The multipart POST of [transcribe]: the opened file and the mapped
    language code. *)
Definition transcribe_request (service_url audio_file_path language : string)
  : http_request :=
  HttpRequest "POST" (service_url +:+ "/transcribe") timeout
    [("audio", audio_file_path)]
    (Some (JObj {[ "language" := JStr (stt_language language) ]}))
    None.

Section formatting.
(** [str(v)] of a decoded JSON value inside an f-string. *)
Context (py_str : json → string).

(** The undecorated method body. *)
Definition transcribe_func (service_url audio_file_path language : string)
  : M json :=
  _ ← open_rb audio_file_path;
  response ← ServiceSession.request "STT"
    (transcribe_request service_url audio_file_path language);
  result ← lift_result (json_body response);
  if bool_decide (status_code response = 200) then
    lift_result (py_get_default result "transcription" (JStr ""))
  else if bool_decide (status_code response = 202) then
    message ← lift_result (py_get_default result "message" (JStr ""));
    mraise (Exception ("STT服務繁忙，請求已加入隊列: " +:+ py_str message))
  else
    error_detail ← lift_result (py_get_default result "error" (JStr ""));
    mraise (Exception ("STT服務錯誤: " +:+ pretty (status_code response)
                         +:+ " - " +:+ py_str error_detail)).

(** [@with_retry(max_retries=2, backoff_factor=0.5)] *)
Definition transcribe (service_url audio_file_path language : string) : M json :=
  with_retry 2 (1 # 2) (transcribe_func service_url audio_file_path language).

End formatting.

Definition unreachable (e : exn) : json :=
  JObj (list_to_map [("status", JStr "unreachable"); ("error", JStr (exn_str e))]).

Definition check_health (service_url : string) : M json :=
  try_except
    (response ← ServiceSession.request "STT"
       (http_get (service_url +:+ "/health") 5);
     lift_result (json_body response))
    (λ e, mret (unreachable e)).

End STTServiceClient.

(** ** TTSServiceClient *)

Module TTSServiceClient.

Definition timeout : Z := 30.

Definition lang_mapping : gmap string string :=
  list_to_map [("zh-TW", "zh-tw"); ("zh-CN", "zh-cn"); ("zh", "zh-tw");
               ("en-US", "en"); ("en", "en")].

(** [lang_mapping.get(language, language)] *)
Definition tts_language (language : string) : string :=
  default language (lang_mapping !! language).

(** [tempfile.NamedTemporaryFile(suffix='.wav', delete=False, dir=temp_dir)],
    [write(data)], [close()], giving the file's name.  The name stands for
    the fresh one the operating system picks. *)
Definition named_temporary_file (temp_dir data : string) : M string := λ w,
  let name := temp_dir +:+ "/tmp" +:+ pretty (length (tmp_files w)) +:+ ".wav" in
  (Ok name, set_tmp_files ((name, data) :: tmp_files w) w).

(** The JSON POST of [synthesize]: the text, the mapped language code and
    the fixed format. *)
Definition synthesize_request (service_url text language : string)
  : http_request :=
  let data := JObj (list_to_map [("text", JStr text);
                                 ("lang", JStr (tts_language language));
                                 ("format", JStr "file")]) in
  HttpRequest "POST" (service_url +:+ "/tts") timeout [] None (Some data).

Section formatting.
Context (py_str : json → string).

(** The undecorated method body; its own [except Exception] logs and
    re-raises. *)
Definition synthesize_func (service_url temp_dir text language : string)
  : M string :=
  try_except
    (response ← ServiceSession.request "TTS"
       (synthesize_request service_url text language);
     if bool_decide (status_code response = 200) then
       named_temporary_file temp_dir (content response)
     else
       let error_msg := "TTS服務錯誤: " +:+ pretty (status_code response) in
       error_msg ← try_except
         (body ← lift_result (json_body response);
          error_detail ← lift_result (py_get_default body "error" (JStr ""));
          mret (error_msg +:+ " - " +:+ py_str error_detail))
         (λ _, mret error_msg);
       mraise (Exception error_msg))
    (λ e, mraise e).

(** [@with_retry(max_retries=3, backoff_factor=0.4)] *)
Definition synthesize (service_url temp_dir text language : string) : M string :=
  with_retry 3 (4 # 10) (synthesize_func service_url temp_dir text language).

End formatting.

Definition default_languages : json :=
  JArr [JStr "en"; JStr "zh-tw"; JStr "zh-cn"].

Definition get_available_languages (service_url : string) : M json :=
  try_except
    (response ← ServiceSession.request "TTS"
       (http_get (service_url +:+ "/languages") 5);
     if bool_decide (status_code response = 200) then
       result ← lift_result (json_body response);
       lift_result (py_get_default result "supported_languages" (JArr []))
     else mret default_languages)
    (λ e, mret default_languages).

Definition default_voices : json :=
  JObj (list_to_map [("en", JArr [JStr "en-US-AriaNeural"]);
                     ("zh-tw", JArr [JStr "zh-TW-HsiaoChenNeural"]);
                     ("zh-cn", JArr [JStr "zh-CN-XiaoxiaoNeural"])]).

Definition get_available_voices (service_url : string) : M json :=
  try_except
    (response ← ServiceSession.request "TTS"
       (http_get (service_url +:+ "/voices") 5);
     if bool_decide (status_code response = 200) then
       result ← lift_result (json_body response);
       lift_result (py_get_default result "voices" (JObj ∅))
     else mret default_voices)
    (λ e, mret default_voices).

Definition unhealthy (code : Z) : json :=
  JObj (list_to_map [("status", JStr "unhealthy");
                     ("error", JStr ("HTTP " +:+ pretty code))]).

Definition unreachable (e : exn) : json :=
  JObj (list_to_map [("status", JStr "unreachable"); ("error", JStr (exn_str e))]).

Definition check_health (service_url : string) : M json :=
  try_except
    (response ← ServiceSession.request "TTS"
       (http_get (service_url +:+ "/health") 5);
     if bool_decide (status_code response = 200) then
       lift_result (json_body response)
     else mret (unhealthy (status_code response)))
    (λ e, mret (unreachable e)).

End TTSServiceClient.

(** ** EmbeddingServiceClient *)

Module EmbeddingServiceClient.

Definition timeout : Z := 30.
Definition default_model : string := "nomic-embed".

(** [if not model: model = self.default_model]; [None] and the empty
    string are the false ones. *)
Definition model_or_default (model : option string) : string :=
  match model with
  | None => default_model
  | Some m => if bool_decide (m = "") then default_model else m
  end.

(** [texts if len(texts) > 1 else texts[0]] *)
Definition embedding_input (texts : list string) : result json :=
  match texts with
  | [] => Raise (Exn E_IndexError "list index out of range" None)
  | [t] => Ok (JStr t)
  | _ => Ok (JArr (JStr <$> texts))
  end.

Section formatting.
Context (py_str : json → string).

Definition get_embeddings (service_url : string) (texts : list string)
    (model : option string) : M json :=
  let model := model_or_default model in
  try_except
    (input ← lift_result (embedding_input texts);
     let data := JObj (list_to_map [("model", JStr model); ("input", input)]) in
     response ← requests_request
       (HttpRequest "POST" (service_url +:+ "/api/embeddings") timeout
          [] None (Some data));
     if bool_decide (status_code response = 200) then
       result ← lift_result (json_body response);
       lift_result (py_get_default result "embeddings" (JArr []))
     else
       let error_msg := "Embedding服務錯誤: " +:+ pretty (status_code response) in
       error_msg ← try_except
         (body ← lift_result (json_body response);
          error_detail ← lift_result (py_get_default body "detail" (JStr ""));
          mret (error_msg +:+ " - " +:+ py_str error_detail))
         (λ _, mret error_msg);
       mraise (Exception error_msg))
    (λ e,
       if is_RequestException (exn_cls e) then
         mraise (Exception "Embedding服務暫時不可用")
       else mraise e).

(** [embeddings[0] if embeddings else []] *)
Definition get_embedding (service_url text : string) (model : option string)
  : M json :=
  embeddings ← get_embeddings service_url [text] model;
  if py_truthy embeddings then lift_result (py_index0 embeddings)
  else mret (JArr []).

(** [get_embedding_batch_simple]: the alternate endpoint first.  The
    [else] branch calls [get_embeddings] inside the [try], so an exception
    of that call reaches the handler, which calls [get_embeddings] again.
    [model] is the name already defaulted. *)
Definition get_embedding_batch_simple (service_url : string)
    (texts : list string) (model : option string) : M json :=
  let model := model_or_default model in
  try_except
    (let data := JObj (list_to_map [("texts", JArr (JStr <$> texts));
                                    ("model", JStr model)]) in
     response ← requests_request
       (HttpRequest "POST" (service_url +:+ "/embed/batch") timeout
          [] None (Some data));
     if bool_decide (status_code response = 200) then
       result ← lift_result (json_body response);
       lift_result (py_get_default result "embeddings" (JArr []))
     else get_embeddings service_url texts (Some model))
    (λ e, get_embeddings service_url texts (Some model)).

End formatting.

Definition unhealthy (code : Z) : json :=
  JObj (list_to_map [("status", JStr "unhealthy");
                     ("error", JStr ("HTTP " +:+ pretty code))]).

Definition unreachable (e : exn) : json :=
  JObj (list_to_map [("status", JStr "unreachable"); ("error", JStr (exn_str e))]).

(** Uses [requests.get] directly: no [raise_for_status], so an error
    status reaches the [else] branch. *)
Definition check_health (service_url : string) : M json :=
  try_except
    (response ← requests_request (http_get (service_url +:+ "/health") 5);
     if bool_decide (status_code response = 200) then
       lift_result (json_body response)
     else mret (unhealthy (status_code response)))
    (λ e, mret (unreachable e)).






End EmbeddingServiceClient.

(** ** LLMServiceClient *)

Module LLMServiceClient.

Definition default_model : string := "Phi-3.5-mini".

(** [self.client.models.list()], giving the ids of [models.data] *)
Definition models_list : M (list string) := λ w,
  (oai_models w (oai_calls w), set_oai_calls (S (oai_calls w)) w).

(** [self.client.chat.completions.create(...)], giving the message content
    of each choice *)
Definition chat_completions_create : M (list string) := λ w,
  (oai_chat w (oai_calls w), set_oai_calls (S (oai_calls w)) w).

(** [response.choices[0].message.content] *)
Definition first_choice (choices : list string) : result string :=
  match choices with
  | c :: _ => Ok c
  | [] => Raise (Exn E_IndexError "list index out of range" None)
  end.

Definition unreachable (e : exn) : json :=
  JObj (list_to_map [("status", JStr "unreachable"); ("error", JStr (exn_str e))]).

(** Two-tier probe: the model list first, a one-token completion when
    that raises; the outer handler turns what is left into a report. *)
Definition check_health : M json :=
  try_except
    (try_except
       (models ← models_list;
        mret (JObj (list_to_map
          [("status", JStr "healthy");
           ("model", JStr default_model);
           ("service", JStr "Genie LLM Service");
           ("available_models", JNum (inject_Z (Z.of_nat (length models))))])))
       (λ _,
          choices ← chat_completions_create;
          _ ← lift_result (first_choice choices);
          mret (JObj (list_to_map
            [("status", JStr "healthy");
             ("model", JStr default_model);
             ("service", JStr "Genie LLM Service")]))))
    (λ e, mret (unreachable e)).

(** The undecorated body of [generate] and of [chat]: both build their
    request (model, messages, max_tokens and the fixed [extra_body]), call
    the completion endpoint and return the first choice's content; their
    [except Exception] re-raises everything as a plain [Exception].  The
    world answers by call number, so the request itself is not recorded. *)
Definition completion_func : M string :=
  try_except
    (choices ← chat_completions_create;
     lift_result (first_choice choices))
    (λ e, mraise (Exception ("LLM服務錯誤: " +:+ exn_str e))).

(** [@with_retry(max_retries=2, backoff_factor=0.8)] on both. *)
Definition generate (prompt : string) (model : option string)
    (max_tokens : Z) (temperature : Q) : M string :=
  with_retry 2 (8 # 10) completion_func.

Definition chat (messages : list (string * string)) (model : option string)
  : M string :=
  with_retry 2 (8 # 10) completion_func.

End LLMServiceClient.

(** ** app.py: health endpoints and lazy singletons *)

(** The four [ServiceConfig] URLs the module-level clients are built with. *)
Record ServiceConfig : Type := {
  STT_SERVICE_URL : string;
  TTS_SERVICE_URL : string;
  EMBEDDING_SERVICE_URL : string;
  LLM_SERVICE_URL : string
}.

(** [health.get('status') == 'healthy'] *)
Definition reports_healthy (health : json) : M bool :=
  status ← lift_result (py_get health "status");
  mret (py_eq_str status "healthy").

Definition is_not_None {A} (x : option A) : bool :=
  match x with Some _ => true | None => false end.

Definition config_json (cfg : ServiceConfig) : json :=
  JObj (list_to_map [("stt_service_url", JStr (STT_SERVICE_URL cfg));
                     ("tts_service_url", JStr (TTS_SERVICE_URL cfg));
                     ("embedding_service_url", JStr (EMBEDDING_SERVICE_URL cfg));
                     ("llm_service_url", JStr (LLM_SERVICE_URL cfg))]).

(** The global read [rag_service is not None] ([crm_service] likewise). *)
Definition rag_loaded : M bool := λ w, (Ok (is_not_None (rag_service w)), w).
Definition crm_loaded : M bool := λ w, (Ok (is_not_None (crm_service w)), w).

(** [/api/health]: no [try] around the aggregation. *)
Definition health_check (cfg : ServiceConfig) : M json :=
  stt_health ← STTServiceClient.check_health (STT_SERVICE_URL cfg);
  stt ← reports_healthy stt_health;
  tts_health ← TTSServiceClient.check_health (TTS_SERVICE_URL cfg);
  tts ← reports_healthy tts_health;
  embedding_health ← EmbeddingServiceClient.check_health (EMBEDDING_SERVICE_URL cfg);
  embedding ← reports_healthy embedding_health;
  llm_health ← LLMServiceClient.check_health;
  llm ← reports_healthy llm_health;
  rag_up ← rag_loaded;
  let rag := rag_up && embedding && llm in
  crm ← crm_loaded;
  let core_microservices_ready := stt && tts && embedding && llm in
  let overall_status := if core_microservices_ready then "healthy" else "partial" in
  mret (JObj (list_to_map
    [("status", JStr overall_status);
     ("version", JStr "1.0.0");
     ("services", JObj (list_to_map
        [("stt", JBool stt); ("tts", JBool tts); ("embedding", JBool embedding);
         ("llm", JBool llm); ("rag", JBool rag); ("crm", JBool crm)]));
     ("microservices", JObj (list_to_map
        [("stt", stt_health); ("tts", tts_health);
         ("embedding", embedding_health); ("llm", llm_health)]));
     ("config", config_json cfg)])).

Definition ready (b : bool) : json := JStr (if b then "ready" else "not_ready").

(** [/api/v1/system/health]: the whole body is inside [try]; the result is
    the JSON body with the HTTP status code. *)
Definition poc_health_check (cfg : ServiceConfig) : M (json * Z) :=
  try_except
    (stt_health ← STTServiceClient.check_health (STT_SERVICE_URL cfg);
     tts_health ← TTSServiceClient.check_health (TTS_SERVICE_URL cfg);
     embedding_health ← EmbeddingServiceClient.check_health (EMBEDDING_SERVICE_URL cfg);
     llm_health ← LLMServiceClient.check_health;
     stt ← reports_healthy stt_health;
     embedding ← reports_healthy embedding_health;
     llm ← (if embedding then reports_healthy llm_health else mret false);
     rag_up ← (if embedding && llm then rag_loaded else mret false);
     tts ← reports_healthy tts_health;
     let whisper_ready := stt in
     let llm_ready := embedding && llm && rag_up in
     let tts_ready := tts in
     let all_ready := whisper_ready && llm_ready && tts_ready in
     mret (JObj (list_to_map
        [("status", JStr (if all_ready then "healthy" else "partial"));
         ("services", JObj (list_to_map
            [("whisper", ready whisper_ready); ("llm", ready llm_ready);
             ("tts", ready tts_ready)]))]), 200))
    (λ e, mret (JObj (list_to_map [("status", JStr "unhealthy");
                                   ("error", JStr (exn_str e))]), 500)).

(** [/api/tts/languages] and [/api/tts/voices]: the JSON body with the
    HTTP status code (200 when the route gives none). *)
Definition get_tts_languages (cfg : ServiceConfig) : M (json * Z) :=
  try_except
    (languages ← TTSServiceClient.get_available_languages (TTS_SERVICE_URL cfg);
     mret (JObj {[ "languages" := languages ]}, 200))
    (λ e, mret (JObj {[ "error" := JStr (exn_str e) ]}, 500)).

Definition get_tts_voices (cfg : ServiceConfig) : M (json * Z) :=
  try_except
    (voices ← TTSServiceClient.get_available_voices (TTS_SERVICE_URL cfg);
     mret (JObj {[ "voices" := voices ]}, 200))
    (λ e, mret (JObj {[ "error" := JStr (exn_str e) ]}, 500)).

(** *** The [/api/tts] route *)

(** What a route returns: a JSON body with its status code, or a file. *)
Inductive flask_response : Type :=
| JsonResponse (body : json) (code : Z)
| FileResponse (path : string) (data : string) (mimetype : string).

(** [needle in hay] on strings. *)
Fixpoint contains (needle hay : string) : bool :=
  String.prefix needle hay
  || match hay with
     | String _ rest => contains needle rest
     | EmptyString => false
     end.

(** [lang_mapping.get(language, language)] of [synthesize] when the
    language is any JSON value: a list or a dictionary cannot be hashed. *)
Definition tts_language_any (language : json) : result json :=
  match language with
  | JStr l => Ok (JStr (TTSServiceClient.tts_language l))
  | JArr _ | JObj _ =>
      Raise (Exn E_TypeError
                 ("unhashable type: '" +:+ py_type_name language +:+ "'") None)
  | other => Ok other
  end.

Section tts_route.
Context (py_str : json → string).

(** [TTSServiceClient.synthesize] as the route calls it, with the text and
    the language as they come out of the request body.  On two strings it
    is [TTSServiceClient.synthesize] ([synthesize_any_strings]). *)
Definition synthesize_func_any (service_url temp_dir : string)
    (text language : json) : M string :=
  try_except
    (lang ← lift_result (tts_language_any language);
     response ← ServiceSession.request "TTS"
       (HttpRequest "POST" (service_url +:+ "/tts") TTSServiceClient.timeout
          [] None
          (Some (JObj (list_to_map [("text", text); ("lang", lang);
                                    ("format", JStr "file")]))));
     if bool_decide (status_code response = 200) then
       TTSServiceClient.named_temporary_file temp_dir (content response)
     else
       let error_msg := "TTS服務錯誤: " +:+ pretty (status_code response) in
       error_msg ← try_except
         (body ← lift_result (json_body response);
          error_detail ← lift_result (py_get_default body "error" (JStr ""));
          mret (error_msg +:+ " - " +:+ py_str error_detail))
         (λ _, mret error_msg);
       mraise (Exception error_msg))
    (λ e, mraise e).

Definition synthesize_any (service_url temp_dir : string) (text language : json)
  : M string :=
  with_retry 3 (4 # 10) (synthesize_func_any service_url temp_dir text language).

(** [send_from_directory(directory=parent, path=name, mimetype=...)] for
    the file at [audio_path]: its bytes, or NotFound. *)
Definition send_from_directory (audio_path mimetype : string) : M flask_response :=
  λ w,
    match (list_to_map (tmp_files w) : gmap string string) !! audio_path with
    | Some data => (Ok (FileResponse audio_path data mimetype), w)
    | None => (Raise (Exn E_Exception "404 Not Found" None), w)
    end.

(** [text_to_speech]; [body] is what [request.get_json()] gives or raises,
    [temp_dir] the cache directory of the TTS client. *)
Definition text_to_speech (cfg : ServiceConfig) (temp_dir : string)
    (body : result json) : M flask_response :=
  try_except
    (data ← lift_result body;
     text ← lift_result (py_get_default data "text" (JStr ""));
     language ← lift_result (py_get_default data "language" (JStr "zh-TW"));
     if negb (py_truthy text) then
       mret (JsonResponse (JObj {[ "error" := JStr "文字內容不能為空" ]}) 400)
     else
       audio_path ← synthesize_any (TTS_SERVICE_URL cfg) temp_dir text language;
       send_from_directory audio_path "audio/wav")
    (λ e,
       if contains "TTS服務暫時不可用" (exn_str e) then
         mret (JsonResponse
                 (JObj {[ "error" := JStr "TTS服務暫時不可用，請稍後再試" ]}) 503)
       else mret (JsonResponse (JObj {[ "error" := JStr (exn_str e) ]}) 500)).

End tts_route.

(** The two lazily initialised module globals. *)
Inductive singleton : Type := RAG | CRM.

(** Reading and assigning the global ([global rag_service] in the source). *)
Definition load (g : singleton) : M (option nat) := λ w,
  (Ok (match g with RAG => rag_service w | CRM => crm_service w end), w).

Definition store (g : singleton) (obj : nat) : M unit := λ w,
  (Ok (),
   match g with
   | RAG => set_services (Some obj) (crm_service w) (constructed w) w
   | CRM => set_services (rag_service w) (Some obj) (constructed w) w
   end).

(** [MicroserviceRAGService()] / [CRMService()].  The constructors connect
    to the vector store and create the contacts file, and they let a
    failure of that out: a run either raises or returns a new object,
    named by the number of objects built before it.  What they do outside
    the globals of app.py is not part of [world]. *)
Definition construct : M nat := λ w,
  let w1 := set_constructor_runs (S (constructor_runs w)) w in
  match constructor_fault w (constructor_runs w) with
  | None =>
      (Ok (constructed w),
       set_services (rag_service w) (crm_service w) (S (constructed w)) w1)
  | Some e => (Raise e, w1)
  end.

(** [get_rag_service] and [get_crm_service] have the same body, each on
    its own global: test, build and assign when [None], return the global. *)
Definition get_service (g : singleton) : M (option nat) :=
  current ← load g;
  _ ← match current with
      | None => obj ← construct; store g obj
      | Some _ => mret ()
      end;
  load g.

Definition get_rag_service : M (option nat) := get_service RAG.
Definition get_crm_service : M (option nat) := get_service CRM.

(** [init_services]: preloads the RAG service, and only it. *)
Definition init_services : M unit :=
  _ ← get_rag_service;
  mret ().

(** *** Callers running concurrently

    The same body cut at its accesses to the global: a caller is at one of
    the four points below, a step runs one caller up to its next point, and
    a schedule says which caller moves at each step.  The constructor runs
    between the test and the assignment (it performs network and file
    input/output), so other callers can move in between. *)
Inductive caller : Type :=
| AtTest                      (* before [if rag_service is None] *)
| AtConstruct                 (* saw [None], before the constructor call *)
| AtAssign (obj : nat)        (* built [obj], before the assignment *)
| AtReturn                    (* before [return rag_service] *)
| Done (returned : option nat)
| Raised (e : exn).           (* left by an exception of the constructor *)

Definition caller_step (g : singleton) (c : caller) : M caller :=
  match c with
  | AtTest =>
      current ← load g;
      mret (match current with None => AtConstruct | Some _ => AtReturn end)
  | AtConstruct =>
      try_except (obj ← construct; mret (AtAssign obj)) (λ e, mret (Raised e))
  | AtAssign obj => _ ← store g obj; mret AtReturn
  | AtReturn => current ← load g; mret (Done current)
  | Done r => mret (Done r)
  | Raised e => mret (Raised e)
  end.

(** One scheduler step: caller [i] moves (nothing happens when there is no
    such caller). *)
Definition sched_step (g : singleton) (i : nat) (st : list caller * world)
  : list caller * world :=
  match st.1 !! i with
  | Some c =>
      match caller_step g c st.2 with
      | (Ok c', w') => (<[i := c']> st.1, w')
      | (Raise _, w') => (st.1, w')
      end
  | None => st
  end.

Definition run_schedule (g : singleton) (schedule : list nat)
    (st : list caller * world) : list caller * world :=
  foldl (λ st i, sched_step g i st) st schedule.

(** [n] callers arriving together. *)
Definition arrivals (n : nat) : list caller := replicate n AtTest.

(** The schedule in which callers [0 .. n-1] run one after the other, each
    to completion (four steps at most). *)
Definition sequential_schedule (n : nat) : list nat :=
  i ← seq 0 n; replicate 4 i.

Definition all_done (cs : list caller) : bool :=
  forallb (λ c, match c with Done _ | Raised _ => true | _ => false end) cs.

(** [n] calls one after the other, each returning before the next starts;
    the list of what they returned. *)
Fixpoint call_n (g : singleton) (n : nat) : M (list (option nat)) :=
  match n with
  | O => mret []
  | S n' =>
      r ← get_service g;
      rs ← call_n g n';
      mret (r :: rs)
  end.

(** ** services/crm_service.py: the contact store behind the CRM routes

    [CRMService] keeps all contacts in one JSON file.  The file is taken to
    hold, when it can be opened and decoded, an object whose ['contacts']
    entry (when present) is a list of objects and whose ['metadata'] entry
    (when present) is an object: the shape every write of this class gives
    it.  Other top-level entries, which no method reads, are left out.  The
    clock and the UUID source are streams, as the network is in [world]. *)

Module CRMService.

Record contacts_doc : Type := ContactsDoc {
  doc_contacts : option (list (gmap string json));
  doc_metadata : option (gmap string json)
}.

Record disk : Type := Disk {
  (** the decoded file, [None] when [open] or [json.load] raises *)
  contacts_file : option contacts_doc;
  (** whether [open(contacts_file, 'w')] succeeds *)
  file_writable : bool;
  (** [datetime.now().isoformat()] and
      [datetime.now(timezone.utc).isoformat()] at the i-th reading of the
      clock, and the readings so far *)
  iso_local : nat → string;
  iso_utc : nat → string;
  clock : nat;
  (** [uuid.uuid4().hex] of the i-th UUID, and the UUIDs drawn so far *)
  uuid_hex : nat → string;
  uuids : nat;
  (** what the i-th [json.dump] into the opened file does, completing
      ([None]) or raising part-way (a string that cannot be encoded, a
      full device), and the dumps begun so far *)
  dump_fault : nat → option exn;
  dumps : nat
}.

Definition C (A : Type) : Type := disk → result A * disk.

#[global] Instance C_ret : MRet C := λ A a s, (Ok a, s).

#[global] Instance C_bind : MBind C := λ A B f m s,
  match m s with
  | (Ok a, s') => f a s'
  | (Raise e, s') => (Raise e, s')
  end.

Definition craise {A} (e : exn) : C A := λ s, (Raise e, s).

Definition try_except {A} (body : C A) (handler : exn → C A) : C A := λ s,
  match body s with
  | (Ok a, s') => (Ok a, s')
  | (Raise e, s') => handler e s'
  end.

Definition tick (s : disk) : disk :=
  Disk (contacts_file s) (file_writable s) (iso_local s) (iso_utc s)
       (S (clock s)) (uuid_hex s) (uuids s) (dump_fault s) (dumps s).

(** [datetime.now().isoformat()] *)
Definition now_isoformat : C string := λ s, (Ok (iso_local s (clock s)), tick s).

(** [datetime.now(timezone.utc)], kept as its [isoformat()] *)
Definition now_utc : C string := λ s, (Ok (iso_utc s (clock s)), tick s).

(** [uuid.uuid4().hex[:8]] *)
Definition uuid4_hex8 : C string := λ s,
  (Ok (String.substring 0 8 (uuid_hex s (uuids s))),
   Disk (contacts_file s) (file_writable s) (iso_local s) (iso_utc s)
        (clock s) (uuid_hex s) (S (uuids s)) (dump_fault s) (dumps s)).

(** [open(contacts_file, 'r')] and [json.load] *)
Definition json_load : C contacts_doc := λ s,
  match contacts_file s with
  | Some doc => (Ok doc, s)
  | None => (Raise (Exn E_OSError "cannot read contacts.json" None), s)
  end.

(** [open(contacts_file, 'w')] and [json.dump].  A failing [open] leaves
    the file as it is.  Once the file is open it is empty, and a
    [json.dump] that raises part-way leaves a beginning of the document in
    it, which does not decode. *)
Definition json_dump (doc : contacts_doc) : C unit := λ s,
  if file_writable s then
    match dump_fault s (dumps s) with
    | None =>
        (Ok (), Disk (Some doc) (file_writable s) (iso_local s) (iso_utc s)
                     (clock s) (uuid_hex s) (uuids s) (dump_fault s)
                     (S (dumps s)))
    | Some e =>
        (Raise e, Disk None (file_writable s) (iso_local s) (iso_utc s)
                       (clock s) (uuid_hex s) (uuids s) (dump_fault s)
                       (S (dumps s)))
    end
  else (Raise (Exn E_OSError "cannot write contacts.json" None), s).

(** The dictionary the methods work on once loaded. *)
Record contacts_data : Type := ContactsData {
  contacts : list (gmap string json);
  metadata : gmap string json
}.

Definition fresh_metadata (created_at : string) : gmap string json :=
  list_to_map [("version", JStr "1.0"); ("created_at", JStr created_at)].

(** Never raises: missing entries are filled in, and a file that cannot be
    read gives an empty store. *)
Definition _load_contacts : C contacts_data :=
  try_except
    (doc ← json_load;
     let contacts := default [] (doc_contacts doc) in
     metadata ← match doc_metadata doc with
                | Some m => mret m
                | None => t ← now_isoformat; mret (fresh_metadata t)
                end;
     mret (ContactsData contacts metadata))
    (λ e, t ← now_isoformat; mret (ContactsData [] (fresh_metadata t))).

(** Stamps ['last_updated'] and writes; logs and re-raises a failure. *)
Definition _save_contacts (data : contacts_data) : C unit :=
  try_except
    (t ← now_isoformat;
     let metadata := <["last_updated" := JStr t]> (metadata data) in
     json_dump (ContactsDoc (Some (contacts data)) (Some metadata)))
    (λ e, craise e).

(** models/contact.py: the attributes of a [Contact]; a datetime is kept
    as its [isoformat()]. *)
Record Contact : Type := {
  contact_id : json;
  name : json;
  company : json;
  position : json;
  phone : json;
  email : json;
  address : json;
  source : json;
  created_at : string;
  updated_at : string;
  tags : json;
  notes : json;
  catalog_sent : json;
  catalog_sent_at : option string
}.

(** [Contact.to_dict] *)
Definition to_dict (c : Contact) : gmap string json :=
  list_to_map
    [("contact_id", contact_id c); ("name", name c);
     ("company", company c); ("position", position c); ("phone", phone c);
     ("email", email c); ("address", address c); ("source", source c);
     ("created_at", JStr (created_at c +:+ "Z"));
     ("updated_at", JStr (updated_at c +:+ "Z"));
     ("tags", tags c); ("notes", notes c);
     ("catalog_sent", catalog_sent c);
     ("catalog_sent_at",
      match catalog_sent_at c with
      | Some t => JStr (t +:+ "Z")
      | None => JNull
      end)].

(** [contact_data.get(key, '')] *)
Definition field (contact_data : gmap string json) (key : string) : json :=
  default (JStr "") (contact_data !! key).

(** [create_contact]: a new id from a UUID, the [Contact] with the two
    clock readings of its constructor, then load, append and save. *)
Definition create_contact (contact_data : gmap string json) : C Contact :=
  try_except
    (hex ← uuid4_hex8;
     created ← now_utc;
     updated ← now_utc;
     let contact :=
       {| contact_id := JStr ("contact_" +:+ hex);
          name := field contact_data "name";
          company := field contact_data "company";
          position := field contact_data "position";
          phone := field contact_data "phone";
          email := field contact_data "email";
          address := field contact_data "address";
          source := JStr "business_card_scan";
          created_at := created;
          updated_at := updated;
          tags := JArr [];
          notes := field contact_data "notes";
          catalog_sent := JBool false;
          catalog_sent_at := None |} in
     data ← _load_contacts;
     _ ← _save_contacts
           (ContactsData (contacts data ++ [to_dict contact]) (metadata data));
     mret contact)
    (λ e, craise e).

(** [contact.get("contact_id") == contact_id] *)
Definition has_id (contact_id : string) (contact : gmap string json) : bool :=
  py_eq_str (contact !! "contact_id") contact_id.

(** [l[start:stop]] for integers of either sign. *)
Definition py_slice {A} (l : list A) (start stop : Z) : list A :=
  let len := Z.of_nat (length l) in
  let clamp i := if bool_decide (i < 0) then Z.max 0 (len + i) else Z.min i len in
  take (Z.to_nat (clamp stop - clamp start)) (drop (Z.to_nat (clamp start)) l).

(** The dictionary [list_contacts] returns. *)
Record contact_page : Type := ContactPage {
  page_contacts : list (gmap string json);
  page_total : Z;
  page_limit : Z;
  page_offset : Z
}.

Definition list_contacts (limit offset : Z) : C contact_page :=
  try_except
    (data ← _load_contacts;
     let total := Z.of_nat (length (contacts data)) in
     let paginated_contacts := py_slice (contacts data) offset (offset + limit) in
     mret (ContactPage paginated_contacts total limit offset))
    (λ e, mret (ContactPage [] 0 limit offset)).

(** [contact[key]] *)
Definition getitem (contact : gmap string json) (key : string) : C json :=
  match contact !! key with
  | Some v => mret v
  | None => craise (Exn E_KeyError key None)
  end.

(** One entry of [list_contacts_api_response]: ['contact_id'], ['name'] and
    ['created_at'] are indexed, ['company'] has a default. *)
Definition simplified (contact : gmap string json) : C (gmap string json) :=
  contact_id ← getitem contact "contact_id";
  name ← getitem contact "name";
  let company := default (JStr "") (contact !! "company") in
  created_at ← getitem contact "created_at";
  mret (list_to_map [("contact_id", contact_id); ("name", name);
                     ("company", company); ("created_at", created_at)]).

Fixpoint simplified_contacts (page : list (gmap string json))
  : C (list (gmap string json)) :=
  match page with
  | [] => mret []
  | contact :: rest =>
      entry ← simplified contact;
      entries ← simplified_contacts rest;
      mret (entry :: entries)
  end.

(** The dictionary [list_contacts_api_response] returns. *)
Record api_page : Type := ApiPage {
  api_contacts : list (gmap string json);
  api_total : Z
}.

Definition list_contacts_api_response (limit offset : Z) : C api_page :=
  try_except
    (data ← _load_contacts;
     let total := Z.of_nat (length (contacts data)) in
     let paginated_contacts := py_slice (contacts data) offset (offset + limit) in
     entries ← simplified_contacts paginated_contacts;
     mret (ApiPage entries total))
    (λ e, mret (ApiPage [] 0)).

(** [delete_contact]: keeps the contacts with another id, saves only when
    the list got shorter, and answers [False] on any failure. *)
Definition delete_contact (contact_id : string) : C bool :=
  try_except
    (data ← _load_contacts;
     let original_count := length (contacts data) in
     let kept := List.filter (λ c, negb (has_id contact_id c)) (contacts data) in
     if bool_decide (length kept < original_count)%nat then
       _ ← _save_contacts (ContactsData kept (metadata data));
       mret true
     else mret false)
    (λ e, mret false).

(** [s.replace('Z', '+00:00')] *)
Fixpoint replace_Z (s : string) : string :=
  match s with
  | EmptyString => EmptyString
  | String c rest =>
      if bool_decide (String c EmptyString = "Z") then "+00:00" +:+ replace_Z rest
      else String c (replace_Z rest)
  end.

(** The contacts before the first one with the id, that one, and the
    contacts after it. *)
Fixpoint split_at_id (contact_id : string) (l : list (gmap string json))
  : option (list (gmap string json) * gmap string json * list (gmap string json)) :=
  match l with
  | [] => None
  | contact_data :: rest =>
      if has_id contact_id contact_data then Some ([], contact_data, rest)
      else match split_at_id contact_id rest with
           | Some (before, found, after) => Some (contact_data :: before, found, after)
           | None => None
           end
  end.

Section from_dict.
(** [datetime.fromisoformat], giving the [isoformat()] of the datetime it
    parsed, or raising. *)
Context (fromisoformat : string → result string).

(** [datetime.fromisoformat(value.replace('Z', '+00:00'))]: only a string
    has [replace]. *)
Definition parse_timestamp (value : json) : C string := λ s,
  match value with
  | JStr text => (fromisoformat (replace_Z text), s)
  | _ => (Raise (Exn E_AttributeError "object has no attribute 'replace'" None), s)
  end.

(** [Contact.from_dict]: the constructor first (a new id when the stored
    one is missing or false, the two readings of the clock), then the
    stored timestamps parsed over them. *)
Definition from_dict (data : gmap string json) : C Contact :=
  name ← match data !! "name" with
         | Some v => mret v
         | None => craise (Exn E_KeyError "name" None)
         end;
  let given_id := default JNull (data !! "contact_id") in
  contact_id ← (if py_truthy given_id then mret given_id
                else hex ← uuid4_hex8; mret (JStr ("contact_" +:+ hex)));
  created ← now_utc;
  updated ← now_utc;
  created ← match data !! "created_at" with
            | Some v => parse_timestamp v
            | None => mret created
            end;
  updated ← match data !! "updated_at" with
            | Some v => parse_timestamp v
            | None => mret updated
            end;
  sent_at ← match data !! "catalog_sent_at" with
            | Some v => if py_truthy v then t ← parse_timestamp v; mret (Some t)
                        else mret None
            | None => mret None
            end;
  mret {| contact_id := contact_id;
          name := name;
          company := default JNull (data !! "company");
          position := default JNull (data !! "position");
          phone := default JNull (data !! "phone");
          email := default JNull (data !! "email");
          address := default JNull (data !! "address");
          source := default (JStr "business_card_scan") (data !! "source");
          created_at := created;
          updated_at := updated;
          tags := default (JArr []) (data !! "tags");
          notes := default (JStr "") (data !! "notes");
          catalog_sent := default (JBool false) (data !! "catalog_sent");
          catalog_sent_at := sent_at |}.

(** [get_contact]: the first stored contact with the id, converted; [None]
    when there is none and on any failure. *)
Definition get_contact (contact_id : string) : C (option Contact) :=
  try_except
    (data ← _load_contacts;
     match split_at_id contact_id (contacts data) with
     | Some (_, contact_data, _) =>
         contact ← from_dict contact_data;
         mret (Some contact)
     | None => mret None
     end)
    (λ e, mret None).

(** [update_contact]: every entry of the update but ['contact_id'] is put
    into the first stored contact with the id, ['updated_at'] is stamped,
    the file is saved, and only then is the contact converted. *)
Definition update_contact (contact_id : string) (update_data : gmap string json)
  : C (option Contact) :=
  try_except
    (data ← _load_contacts;
     match split_at_id contact_id (contacts data) with
     | Some (before, contact_data, after) =>
         let contact_data := delete "contact_id" update_data ∪ contact_data in
         t ← now_isoformat;
         let contact_data := <["updated_at" := JStr t]> contact_data in
         _ ← _save_contacts
               (ContactsData (before ++ contact_data :: after) (metadata data));
         contact ← from_dict contact_data;
         mret (Some contact)
     | None => mret None
     end)
    (λ e, mret None).

End from_dict.



End CRMService.

(** ** Vocabulary of the properties, and concrete inputs *)

Definition empty_world (net : nat → http_request → result response)
    (oai_models oai_chat : nat → result (list string)) : world :=
  World net 0 oai_models oai_chat 0 (λ _, true) [] [] 0 None None 0
        (λ _, None) 0.


(** A backend that times out twice and then answers. *)
Definition flaky_twice (i : nat) : result nat :=
  if (i <? 2)%nat then Raise (Exn E_ReadTimeout "read timed out" None) else Ok 7%nat.

Definition quiet_world : world :=
  empty_world (λ _ _, Raise (Exn E_ConnectionError "connection refused" None))
              (λ _, Raise (Exn E_OpenAIError "connection error" None))
              (λ _, Raise (Exn E_OpenAIError "connection error" None)).

(** A degraded health report: a dictionary whose status is ['unreachable']
    or ['unhealthy'] and which has an ['error'] entry. *)
Definition is_degraded (report : json) : bool :=
  match report with
  | JObj d =>
      (py_eq_str (d !! "status") "unreachable"
       || py_eq_str (d !! "status") "unhealthy")
      && is_not_None (d !! "error")
  | _ => false
  end.

(** [report['status']] when [report] is a dictionary that has one. *)
Definition status_of (report : json) : option json :=
  match report with
  | JObj d => d !! "status"
  | _ => None
  end.

(** What [ServiceSession.request] makes of the outcome of the underlying
    call; [ServiceSession_request_outcome] below proves that this is what
    the method does. *)
Definition session_outcome (service_name : string) (o : result response)
  : result response :=
  match o with
  | Ok r =>
      if bool_decide (400 ≤ status_code r < 600) then
        Raise (Exception (service_name +:+ "服務HTTP錯誤: " +:+ pretty (status_code r)))
      else Ok r
  | Raise e =>
      if is_Timeout (exn_cls e) then
        Raise (Exception (service_name +:+ "服務請求超時"))
      else if is_ConnectionError (exn_cls e) then
        Raise (Exception (service_name +:+ "服務連接失敗"))
      else if is_HTTPError (exn_cls e) then
        match exn_response e with
        | Some code =>
            Raise (Exception (service_name +:+ "服務HTTP錯誤: " +:+ pretty code))
        | None =>
            Raise (Exn E_AttributeError
                       "'NoneType' object has no attribute 'status_code'" None)
        end
      else Raise e
  end.

(** The URLs [ServiceConfig] falls back to when the environment sets none. *)
Definition default_config : ServiceConfig :=
  {| STT_SERVICE_URL := "http://localhost:5003";
     TTS_SERVICE_URL := "http://localhost:5004";
     EMBEDDING_SERVICE_URL := "http://localhost:11434";
     LLM_SERVICE_URL := "http://127.0.0.1:8910" |}.

(** A backend answering 200 with the given JSON value as body. *)
Definition answers (body : json) : nat → http_request → result response :=
  λ _ _, Ok (Response 200 "" (Ok body)).

Definition healthy_body : json := JObj {[ "status" := JStr "healthy" ]}.

(** Every capability up. *)
Definition all_up : world :=
  empty_world (answers healthy_body) (λ _, Ok ["Phi-3.5-mini"]) (λ _, Ok ["hi"]).

(** The three HTTP backends up, the LLM server down. *)
Definition llm_down : world :=
  empty_world (answers healthy_body)
              (λ _, Raise (Exn E_OpenAIError "Connection error." None))
              (λ _, Raise (Exn E_OpenAIError "Connection error." None)).

(** The STT backend answers its health probe with 200 and the JSON array
    [[]]; every other probe is answered with a healthy report. *)
Definition stt_sends_array : world :=
  empty_world
    (λ _ req,
       if bool_decide (req_url req = "http://localhost:5003/health")
       then Ok (Response 200 "[]" (Ok (JArr [])))
       else Ok (Response 200 "" (Ok healthy_body)))
    (λ _, Ok ["Phi-3.5-mini"]) (λ _, Ok ["hi"]).

(** One embedding vector, and a backend that answers every request with
    it as a batch of one. *)
Definition sample_vector : json := JArr [JNum (1 # 10); JNum (2 # 10)].

Definition embedding_up : world :=
  empty_world (answers (JObj {[ "embeddings" := JArr [sample_vector] ]}))
              (λ _, Ok []) (λ _, Ok []).

(** [str] on the JSON values that are strings already; used where a
    concrete formatter is needed. *)
Definition str_of_string (v : json) : string :=
  match v with
  | JStr s => s
  | _ => ""
  end.

(** The failures [ServiceSession.request] has a clause for: a timeout, a
    connection error, an error status that is handed back (on which
    [raise_for_status] raises an HTTPError carrying the response). *)
Definition transport_failure (o : result response) : bool :=
  match o with
  | Ok r =>
      bool_decide (400 ≤ status_code r < 600)
      && negb (bool_decide (status_code r ∈ ServiceSession.status_forcelist))
  | Raise e =>
      is_Timeout (exn_cls e) || is_ConnectionError (exn_cls e)
      || (is_HTTPError (exn_cls e) && is_not_None (exn_response e))
  end.

(** The body the STT server of this repository sends with a 202. *)
Definition queued_fields : gmap string json :=
  list_to_map [("message", JStr "Request queued");
               ("request_id", JStr "r1");
               ("queue_position", JNum (inject_Z 1));
               ("status", JStr "queued")].

Definition queued_notice : json := JObj queued_fields.

(** The STT backend is busy: every request is answered 202. *)
Definition stt_queues : world :=
  empty_world (λ _ _, Ok (Response 202 "" (Ok queued_notice)))
              (λ _, Ok []) (λ _, Ok []).

(** The STT backend answers 202 with a JSON list, and with a body that is
    not JSON ([response.json()] raises the JSONDecodeError of [requests]). *)
Definition stt_202_list : world :=
  empty_world (λ _ _, Ok (Response 202 "[]" (Ok (JArr []))))
              (λ _, Ok []) (λ _, Ok []).

Definition stt_202_garbled : world :=
  empty_world
    (λ _ _, Ok (Response 202 "<html>busy</html>"
                  (Raise (Exn E_InvalidJSONError
                              "Expecting value: line 1 column 1 (char 0)" None))))
    (λ _, Ok []) (λ _, Ok []).

(** Every request is answered 404. *)
Definition backend_404 : world :=
  empty_world (λ _ _, Ok (Response 404 "" (Ok (JObj {[ "error" := JStr "no such route" ]}))))
              (λ _, Ok []) (λ _, Ok []).


(** The transport layer gives up on every request with a RetryError, which
    is what its own retry policy raises once exhausted on a status of its
    force list. *)
Definition transport_exhausted : world :=
  empty_world (λ _ _, Raise (Exn E_RetryError "too many 500 error responses" None))
              (λ _, Ok []) (λ _, Ok []).

(** The [requests] exceptions [ServiceSession.request] has no clause for:
    they leave it as they are. *)
Definition passes_through (e : exn) : bool :=
  is_RequestException (exn_cls e)
  && negb (is_Timeout (exn_cls e))
  && negb (is_ConnectionError (exn_cls e))
  && negb (is_HTTPError (exn_cls e)).

(** The world after [j] further network calls and the given further
    sleeps. *)
Definition after_calls (j : nat) (sleeps : list Q) (w : world) : world :=
  set_net_calls (net_calls w + j) (set_slept (slept w ++ sleeps) w).

(** The waits after attempts [s .. s + j - 1]. *)
Definition waits_from (backoff_factor : Q) (s j : nat) : list Q :=
  scheduled_wait backoff_factor <$> (Z.of_nat <$> seq s j).

(** The transport gives up on the first request with a RetryError and
    answers the later ones 200 with a transcription. *)
Definition recovers_after_one : world :=
  empty_world
    (λ i _, match i with
            | O => Raise (Exn E_RetryError "too many 503 error responses" None)
            | _ => Ok (Response 200 "RIFFdata"
                         (Ok (JObj {[ "transcription" := JStr "hello" ]})))
            end)
    (λ _, Ok []) (λ _, Ok []).

(** No file can be opened. *)
Definition no_files : world :=
  World (λ _ _, Raise (Exn E_ConnectionError "connection refused" None)) 0
        (λ _, Ok []) (λ _, Ok []) 0 (λ _, false) [] [] 0 None None 0
        (λ _, None) 0.

(** Every request is answered 204 with an empty JSON object. *)
Definition backend_204 : world :=
  empty_world (λ _ _, Ok (Response 204 "" (Ok (JObj ∅))))
              (λ _, Ok []) (λ _, Ok []).


(** The POST of [get_embedding_batch_simple] to the alternate endpoint. *)
Definition batch_request (service_url : string) (texts : list string)
    (model : option string) : http_request :=
  HttpRequest "POST" (service_url +:+ "/embed/batch")
    EmbeddingServiceClient.timeout [] None
    (Some (JObj (list_to_map
       [("texts", JArr (JStr <$> texts));
        ("model", JStr (EmbeddingServiceClient.model_or_default model))]))).

(** The world after [n] further HTTP probes and [m] further calls to the
    OpenAI client, nothing else changed. *)
Definition probed (n m : nat) (w : world) : world :=
  set_oai_calls (oai_calls w + m) (set_net_calls (net_calls w + n) w).

(** Callers that have not built an object yet. *)
Definition before_build (c : caller) : nat :=
  match c with
  | AtTest | AtConstruct => 1
  | _ => 0
  end.

(** The value of the global. *)
Definition global (g : singleton) (w : world) : option nat :=
  match g with
  | RAG => rag_service w
  | CRM => crm_service w
  end.

(** Callers that have not reached the assignment's end, or never will:
    the global may still be [None] while all callers are here. *)
Definition early (c : caller) : Prop :=
  match c with
  | AtTest | AtConstruct | AtAssign _ | Raised _ => True
  | _ => False
  end.


(** The POST of [get_embeddings] to the primary endpoint, for the given
    ['input'] value. *)
Definition embeddings_request (service_url : string) (model : option string)
    (input : json) : http_request :=
  HttpRequest "POST" (service_url +:+ "/api/embeddings")
    EmbeddingServiceClient.timeout [] None
    (Some (JObj (list_to_map
       [("model", JStr (EmbeddingServiceClient.model_or_default model));
        ("input", input)]))).

(** The contacts a store holds: those of the file, none when the file
    cannot be read or has no ['contacts'] entry. *)
Definition stored (s : CRMService.disk) : list (gmap string json) :=
  match CRMService.contacts_file s with
  | Some doc => default [] (CRMService.doc_contacts doc)
  | None => []
  end.

(** A store of three contacts, with a clock and a UUID source. *)
Definition contact_named (id who : string) : gmap string json :=
  list_to_map [("contact_id", JStr id); ("name", JStr who)].

Definition three_contacts : CRMService.disk :=
  CRMService.Disk
    (Some (CRMService.ContactsDoc
             (Some [contact_named "contact_aaaaaaaa" "Ann";
                    contact_named "contact_bbbbbbbb" "Bob";
                    contact_named "contact_cccccccc" "Cid"])
             (Some (CRMService.fresh_metadata "2024-01-01T00:00:00"))))
    true
    (λ i, "2024-01-02T00:00:0" +:+ pretty i)
    (λ i, "2024-01-02T00:00:0" +:+ pretty i +:+ "+00:00")
    0
    (λ _, "0123456789abcdef0123456789abcdef")
    0
    (λ _, None)
    0.

(** The store after [k] further readings of the clock. *)
Definition ticks (k : nat) (s : CRMService.disk) : CRMService.disk :=
  CRMService.Disk (CRMService.contacts_file s) (CRMService.file_writable s)
    (CRMService.iso_local s) (CRMService.iso_utc s) (CRMService.clock s + k)
    (CRMService.uuid_hex s) (CRMService.uuids s)
    (CRMService.dump_fault s) (CRMService.dumps s).

(** The store after one more [json.dump], which left the given file. *)
Definition dumped (file : option CRMService.contacts_doc) (s : CRMService.disk)
  : CRMService.disk :=
  CRMService.Disk file (CRMService.file_writable s)
    (CRMService.iso_local s) (CRMService.iso_utc s) (CRMService.clock s)
    (CRMService.uuid_hex s) (CRMService.uuids s)
    (CRMService.dump_fault s) (S (CRMService.dumps s)).

(** The store after a dump that completed. *)
Definition with_file (doc : CRMService.contacts_doc) (s : CRMService.disk)
  : CRMService.disk :=
  dumped (Some doc) s.

(** What the next [json.dump] does, and whether it completes. *)
Definition next_dump (s : CRMService.disk) : option exn :=
  CRMService.dump_fault s (CRMService.dumps s).

Definition dump_completes (s : CRMService.disk) : bool :=
  match next_dump s with
  | None => true
  | Some _ => false
  end.

(** The contact [create_contact] makes of a request on a store. *)
Definition fresh_contact (contact_data : gmap string json) (s : CRMService.disk)
  : CRMService.Contact :=
  {| CRMService.contact_id :=
       JStr ("contact_" +:+ String.substring 0 8
                              (CRMService.uuid_hex s (CRMService.uuids s)));
     CRMService.name := default (JStr "") (contact_data !! "name");
     CRMService.company := default (JStr "") (contact_data !! "company");
     CRMService.position := default (JStr "") (contact_data !! "position");
     CRMService.phone := default (JStr "") (contact_data !! "phone");
     CRMService.email := default (JStr "") (contact_data !! "email");
     CRMService.address := default (JStr "") (contact_data !! "address");
     CRMService.source := JStr "business_card_scan";
     CRMService.created_at := CRMService.iso_utc s (CRMService.clock s);
     CRMService.updated_at := CRMService.iso_utc s (S (CRMService.clock s));
     CRMService.tags := JArr [];
     CRMService.notes := default (JStr "") (contact_data !! "notes");
     CRMService.catalog_sent := JBool false;
     CRMService.catalog_sent_at := None |}.


(** A [fromisoformat] that accepts the lengths of a timestamp with
    seconds or microseconds, alone or followed by one UTC offset. *)
Definition strict_fromisoformat (t : string) : result string :=
  if bool_decide (String.length t ∈ [19; 25; 26; 32]%nat) then Ok t
  else Raise (Exn E_ValueError "Invalid isoformat string" None).

(** What [update_contact] leaves in place of the contact it updates. *)
Definition updated_with (update_data : gmap string json) (t : string)
    (contact_data : gmap string json) : gmap string json :=
  <["updated_at" := JStr t]> (delete "contact_id" update_data ∪ contact_data).

(** A stored contact has the three entries the API listing indexes. *)
Definition listable (c : gmap string json) : bool :=
  bool_decide (is_Some (c !! "contact_id"))
  && bool_decide (is_Some (c !! "name"))
  && bool_decide (is_Some (c !! "created_at")).

(** How an entry of the API listing relates to the stored contact. *)
Definition simplified_from (c entry : gmap string json) : Prop :=
  entry !! "contact_id" = c !! "contact_id"
  ∧ entry !! "name" = c !! "name"
  ∧ entry !! "created_at" = c !! "created_at"
  ∧ entry !! "company" = Some (default (JStr "") (c !! "company"))
  ∧ ∀ key, key ∉ ["contact_id"; "name"; "company"; "created_at"] →
      entry !! key = None.


(** * Properties *)

(** Unfolds the monad's plumbing, leaving the primitive effects. *)
Ltac run_M :=
  cbv [mbind M_bind mret M_ret mraise try_except lift_result]; cbn beta.

(** ** The retry decorator *)

Lemma can_wait_sleeps (backoff_factor : Q) (attempt : Z) (w : world) :
  can_wait backoff_factor attempt = true →
  wait_time backoff_factor attempt = Ok (scheduled_wait backoff_factor attempt)
  ∧ time_sleep (scheduled_wait backoff_factor attempt) w
    = (Ok (), set_slept (slept w ++ [scheduled_wait backoff_factor attempt]) w).
Proof.
  unfold can_wait. intros H.
  apply andb_prop in H as [H Hpos]. apply andb_prop in H as [Hlt Hfits].
  unfold wait_time, time_sleep. by rewrite Hlt, Hfits, Hpos.
Qed.

Lemma waits_allowed_at (backoff_factor : Q) (k : nat) (attempt : Z) :
  waits_allowed backoff_factor k = true →
  0 ≤ attempt < Z.of_nat k →
  can_wait backoff_factor attempt = true.
Proof.
  unfold waits_allowed, py_range. rewrite Nat2Z.id.
  intros H Ha. rewrite forallb_forall in H. apply H.
  apply list_elem_of_In, list_elem_of_fmap.
  exists (Z.to_nat attempt). split; [lia|].
  apply elem_of_seq. lia.
Qed.

Lemma waits_allowed_below (backoff_factor : Q) (max_retries : Z) :
  waits_allowed backoff_factor (Z.to_nat max_retries) = true →
  ∀ attempt, 0 ≤ attempt < max_retries → can_wait backoff_factor attempt = true.
Proof.
  intros H attempt Ha. apply (waits_allowed_at _ (Z.to_nat max_retries)); [done|lia].
Qed.

Lemma py_range_succ (n : nat) :
  py_range (Z.of_nat (S n)) = py_range (Z.of_nat n) ++ [Z.of_nat n].
Proof.
  unfold py_range. rewrite !Nat2Z.id. rewrite seq_S. simpl.
  by rewrite fmap_app.
Qed.



Section retry_scripted.
Context {A : Type}.
Variables (max_retries : Z) (backoff_factor : Q).
Variable script : nat → result A.








End retry_scripted.

Lemma with_retry_range (max_retries : Z) :
  0 ≤ max_retries →
  py_range (max_retries + 1) = Z.of_nat <$> seq 0 (S (Z.to_nat max_retries)).
Proof.
  intros H. unfold py_range. do 2 f_equal. lia.
Qed.




(** ** Language codes *)

Lemma stt_language_cases (language : string) :
  STTServiceClient.stt_language language =
    if decide (language = "zh-TW") then "zh"
    else if decide (language = "zh-CN") then "zh"
    else if decide (language = "en-US") then "en"
    else language.
Proof.
  unfold STTServiceClient.stt_language, STTServiceClient.lang_mapping.
  cbn [list_to_map foldr uncurry fst snd].
  repeat (rewrite lookup_insert; case_decide; subst; simpl;
          [repeat case_decide; done|]).
  rewrite lookup_empty. simpl. repeat case_decide; congruence.
Qed.

Lemma tts_language_cases (language : string) :
  TTSServiceClient.tts_language language =
    if decide (language = "zh-TW") then "zh-tw"
    else if decide (language = "zh-CN") then "zh-cn"
    else if decide (language = "zh") then "zh-tw"
    else if decide (language = "en-US") then "en"
    else language.
Proof.
  unfold TTSServiceClient.tts_language, TTSServiceClient.lang_mapping.
  cbn [list_to_map foldr uncurry fst snd].
  repeat (rewrite lookup_insert; case_decide; subst; simpl;
          [repeat case_decide; done|]).
  rewrite lookup_empty. simpl. repeat case_decide; congruence.
Qed.

(** Claim C5.  Both language mappings are functions on all strings, and
    for every code: mapping twice is mapping once; a code that is not a key
    of the table is returned unchanged; the canonical codes ['zh'] and
    ['en'] (STT), ['zh-tw'], ['zh-cn'] and ['en'] (TTS) map to themselves;
    and the TTS mapping sends the bare ['zh'] to ['zh-tw']. *)
Theorem language_mapping_idempotent (language : string) :
  STTServiceClient.stt_language (STTServiceClient.stt_language language)
    = STTServiceClient.stt_language language
  ∧ TTSServiceClient.tts_language (TTSServiceClient.tts_language language)
    = TTSServiceClient.tts_language language
  ∧ (STTServiceClient.lang_mapping !! language = None →
     STTServiceClient.stt_language language = language)
  ∧ (TTSServiceClient.lang_mapping !! language = None →
     TTSServiceClient.tts_language language = language)
  ∧ STTServiceClient.stt_language "zh" = "zh"
  ∧ STTServiceClient.stt_language "en" = "en"
  ∧ TTSServiceClient.tts_language "zh-tw" = "zh-tw"
  ∧ TTSServiceClient.tts_language "zh-cn" = "zh-cn"
  ∧ TTSServiceClient.tts_language "en" = "en"
  ∧ TTSServiceClient.tts_language "zh" = "zh-tw".
Proof.
  split; [|split; [|split; [|split]]].
  - rewrite (stt_language_cases language).
    repeat case_decide; subst; try reflexivity.
    rewrite stt_language_cases. repeat case_decide; congruence.
  - rewrite (tts_language_cases language).
    repeat case_decide; subst; try reflexivity.
    rewrite tts_language_cases. repeat case_decide; congruence.
  - intros H. unfold STTServiceClient.stt_language. by rewrite H.
  - intros H. unfold TTSServiceClient.tts_language. by rewrite H.
  - repeat split; reflexivity.
Qed.

Lemma language_mapping_idempotent_witness :
  STTServiceClient.stt_language "fr" = "fr"
  ∧ TTSServiceClient.tts_language "fr" = "fr".
Proof.
  destruct (language_mapping_idempotent "fr") as (_ & _ & Hs & Ht & _).
  split; [apply Hs | apply Ht]; reflexivity.
Defined.

(** ** Health checks of the clients *)

Lemma unreachable_degraded (e : exn) :
  is_degraded (STTServiceClient.unreachable e) = true
  ∧ is_degraded (TTSServiceClient.unreachable e) = true
  ∧ is_degraded (EmbeddingServiceClient.unreachable e) = true
  ∧ is_degraded (LLMServiceClient.unreachable e) = true.
Proof. repeat split; reflexivity. Qed.

Lemma unhealthy_degraded (code : Z) :
  is_degraded (TTSServiceClient.unhealthy code) = true
  ∧ is_degraded (EmbeddingServiceClient.unhealthy code) = true.
Proof. repeat split; reflexivity. Qed.

Lemma ServiceSession_request_outcome (service_name : string)
    (req : http_request) (w : world) :
  ServiceSession.request service_name req w
  = (session_outcome service_name (net w (net_calls w) req),
     set_net_calls (S (net_calls w)) w).
Proof.
  cbv [ServiceSession.request requests_request raise_for_status]. run_M.
  unfold session_outcome.
  destruct (net w (net_calls w) req) as [r|e].
  - repeat case_bool_decide; try lia; reflexivity.
  - destruct (is_Timeout (exn_cls e)); [reflexivity|].
    destruct (is_ConnectionError (exn_cls e)); [reflexivity|].
    destruct (is_HTTPError (exn_cls e)); [|reflexivity].
    destruct (exn_response e); reflexivity.
Qed.

(** Claim C9.  Each client's [check_health] returns a report on every
    world, whatever the backend does, and never raises.  When the probe
    fails the report is degraded (status ['unreachable'] or ['unhealthy'],
    with an ['error'] entry); otherwise it is the decoded body the backend
    sent (STT, TTS, Embedding) or the client's own ['healthy'] report (LLM).
    Failing means: the call raised, the status was an error one (for TTS
    and Embedding: was not 200), or the body did not decode; for the LLM
    client, that the model listing raised and the one-token completion
    raised or had no choice. *)
Theorem check_health_never_raises (service_url : string) (w : world) :
  (∃ report w',
     STTServiceClient.check_health service_url w = (Ok report, w')
     ∧ match net w (net_calls w) (http_get (service_url +:+ "/health") 5) with
       | Ok r =>
           if bool_decide (400 ≤ status_code r < 600)
           then is_degraded report = true
           else match json_body r with
                | Ok body => report = body
                | Raise _ => is_degraded report = true
                end
       | Raise _ => is_degraded report = true
       end)
  ∧ (∃ report w',
     TTSServiceClient.check_health service_url w = (Ok report, w')
     ∧ match net w (net_calls w) (http_get (service_url +:+ "/health") 5) with
       | Ok r =>
           if bool_decide (status_code r = 200)
           then match json_body r with
                | Ok body => report = body
                | Raise _ => is_degraded report = true
                end
           else is_degraded report = true
       | Raise _ => is_degraded report = true
       end)
  ∧ (∃ report w',
     EmbeddingServiceClient.check_health service_url w = (Ok report, w')
     ∧ match net w (net_calls w) (http_get (service_url +:+ "/health") 5) with
       | Ok r =>
           if bool_decide (status_code r = 200)
           then match json_body r with
                | Ok body => report = body
                | Raise _ => is_degraded report = true
                end
           else is_degraded report = true
       | Raise _ => is_degraded report = true
       end)
  ∧ (∃ report w',
     LLMServiceClient.check_health w = (Ok report, w')
     ∧ match oai_models w (oai_calls w) with
       | Ok _ => status_of report = Some (JStr "healthy")
       | Raise _ =>
           match oai_chat w (S (oai_calls w)) with
           | Ok (_ :: _) => status_of report = Some (JStr "healthy")
           | _ => is_degraded report = true
           end
       end).
Proof.
  repeat split.
  - cbv [STTServiceClient.check_health]. run_M.
    rewrite ServiceSession_request_outcome. unfold session_outcome.
    destruct (net w (net_calls w) _) as [r|e].
    + case_bool_decide; [by eauto|].
      destruct (json_body r); by eauto.
    + repeat (case_match; try by eauto).
  - cbv [TTSServiceClient.check_health]. run_M.
    rewrite ServiceSession_request_outcome. unfold session_outcome.
    destruct (net w (net_calls w) _) as [r|e].
    + repeat case_bool_decide; try lia; try by eauto.
      destruct (json_body r); by eauto.
    + repeat (case_match; try by eauto).
  - cbv [EmbeddingServiceClient.check_health requests_request]. run_M.
    destruct (net w (net_calls w) _) as [r|e]; [|by eauto].
    case_bool_decide; [|by eauto].
    destruct (json_body r); by eauto.
  - cbv [LLMServiceClient.check_health LLMServiceClient.models_list
         LLMServiceClient.chat_completions_create]. run_M.
    destruct (oai_models w (oai_calls w)) as [models|e]; [by eauto|].
    cbn [oai_chat oai_calls set_oai_calls].
    destruct (oai_chat w (S (oai_calls w))) as [[|c choices]|e']; by eauto.
Qed.

(** Against claim C9 as stated: what [check_health] returns on a
    successful probe is the decoded body, whatever the backend sent.  To a
    backend answering 200 with an empty JSON list, the STT client returns
    that list: not a dictionary, and with no status. *)
Lemma check_health_returns_what_was_sent :
  ∃ w',
    STTServiceClient.check_health "http://localhost:5003" stt_sends_array
      = (Ok (JArr []), w')
    ∧ status_of (JArr []) = None
    ∧ is_degraded (JArr []) = false.
Proof. eexists. repeat split; reflexivity. Qed.


(** ** The two listing endpoints of the TTS client *)


(** ** The health endpoints *)

(** Claim C1.  In [/api/health], when the four clients' health results are
    dictionaries, each classified healthy exactly when its ['status'] entry
    is the string ['healthy'], the endpoint answers with a report whose
    ['status'] is ['healthy'] if all four are healthy and ['partial']
    otherwise, so also when exactly three of the four are. *)
Theorem health_check_overall (cfg : ServiceConfig) (w w1 w2 w3 w4 : world)
    (stt_health tts_health embedding_health llm_health : gmap string json) :
  STTServiceClient.check_health (STT_SERVICE_URL cfg) w = (Ok (JObj stt_health), w1) →
  TTSServiceClient.check_health (TTS_SERVICE_URL cfg) w1 = (Ok (JObj tts_health), w2) →
  EmbeddingServiceClient.check_health (EMBEDDING_SERVICE_URL cfg) w2
    = (Ok (JObj embedding_health), w3) →
  LLMServiceClient.check_health w3 = (Ok (JObj llm_health), w4) →
  let stt := py_eq_str (stt_health !! "status") "healthy" in
  let tts := py_eq_str (tts_health !! "status") "healthy" in
  let embedding := py_eq_str (embedding_health !! "status") "healthy" in
  let llm := py_eq_str (llm_health !! "status") "healthy" in
  ∃ report,
    health_check cfg w = (Ok report, w4)
    ∧ status_of report
      = Some (JStr (if stt && tts && embedding && llm then "healthy" else "partial")).
Proof.
  intros Hstt Htts Hemb Hllm stt tts embedding llm.
  cbv [health_check reports_healthy rag_loaded crm_loaded]. run_M.
  rewrite Hstt. cbn [py_get]. rewrite Htts. cbn [py_get].
  rewrite Hemb. cbn [py_get]. rewrite Hllm. cbn [py_get].
  eexists. split; [reflexivity|].
  subst stt tts embedding llm.
  destruct (py_eq_str (stt_health !! "status") "healthy"),
           (py_eq_str (tts_health !! "status") "healthy"),
           (py_eq_str (embedding_health !! "status") "healthy"),
           (py_eq_str (llm_health !! "status") "healthy"); reflexivity.
Qed.

Lemma health_check_overall_witness :
  (∃ report w', health_check default_config all_up = (Ok report, w')
                ∧ status_of report = Some (JStr "healthy"))
  ∧ (∃ report w', health_check default_config llm_down = (Ok report, w')
                  ∧ status_of report = Some (JStr "partial")).
Proof.
  split.
  - edestruct (health_check_overall default_config all_up) as (report & Hr & Hs);
      [reflexivity..|].
    exists report. eexists. split; [exact Hr | exact Hs].
  - edestruct (health_check_overall default_config llm_down) as (report & Hr & Hs);
      [reflexivity..|].
    exists report. eexists. split; [exact Hr | exact Hs].
Defined.

(** A [try] whose handler always returns never raises. *)
Lemma try_except_returns {A} (body : M A) (handler : exn → M A) (w : world) :
  (∀ e w1, ∃ a w2, handler e w1 = (Ok a, w2)) →
  ∃ a w', try_except body handler w = (Ok a, w').
Proof.
  intros Hh. unfold try_except.
  destruct (body w) as [[a|e] w1]; [by eauto | apply Hh].
Qed.

(** The simplified endpoint is guarded: it always answers, and when it
    answers 500 the body is an ['unhealthy'] report with an ['error']. *)
Lemma poc_health_check_guarded (cfg : ServiceConfig) (w : world) :
  ∃ body code w',
    poc_health_check cfg w = (Ok (body, code), w')
    ∧ (code = 200
       ∨ code = 500 ∧ ∃ e, body = JObj (list_to_map [("status", JStr "unhealthy");
                                                     ("error", JStr (exn_str e))])).
Proof.
  unfold poc_health_check, try_except.
  match goal with |- context [match ?b w with _ => _ end] => destruct (b w) as [[[body code]|e] w1] eqn:Hb end.
  - exists body, code, w1. split; [done|]. left.
    revert Hb. run_M. repeat case_match; intros; simplify_eq; done.
  - run_M. eexists _, _, _. split; [done|]. right. eauto.
Qed.

(** Claim C6, at the input on which the code departs from it: the STT
    backend answers its health probe with a JSON array.  [/api/health]
    then lets the AttributeError of [stt_health.get] escape, where
    [/api/v1/system/health] answers 500 with an ['unhealthy'] report. *)
Theorem health_check_lets_fault_escape :
  (∃ e w', health_check default_config stt_sends_array = (Raise e, w')
           ∧ exn_cls e = E_AttributeError)
  ∧ (∃ body w', poc_health_check default_config stt_sends_array = (Ok (body, 500), w')
                ∧ status_of body = Some (JStr "unhealthy")).
Proof.
  split.
  - eexists _, _. split; reflexivity.
  - eexists _, _. split; reflexivity.
Qed.

(** ** Embeddings *)

(** When the batch call gives no vector, the single-text call gives the
    empty list. *)
Lemma get_embedding_empty (py_str : json → string) (service_url text : string)
    (model : option string) (w w' : world) :
  EmbeddingServiceClient.get_embeddings py_str service_url [text] model w
    = (Ok (JArr []), w') →
  EmbeddingServiceClient.get_embedding py_str service_url text model w
    = (Ok (JArr []), w').
Proof.
  intros H. unfold EmbeddingServiceClient.get_embedding. run_M. by rewrite H.
Qed.

(** Claim C7.  From the same world (the same backend responses), for every
    text and model choice: when [get_embeddings([text], model)] returns a
    list with a first element, [get_embedding(text, model)] returns exactly
    that element and leaves the same world; when the batch call raises, the
    single-text call raises the same exception. *)
Theorem get_embedding_is_batch_of_one (py_str : json → string)
    (service_url text : string) (model : option string) (w : world) :
  (∀ first rest w',
     EmbeddingServiceClient.get_embeddings py_str service_url [text] model w
       = (Ok (JArr (first :: rest)), w') →
     EmbeddingServiceClient.get_embedding py_str service_url text model w
       = (Ok first, w'))
  ∧ (∀ e w',
     EmbeddingServiceClient.get_embeddings py_str service_url [text] model w
       = (Raise e, w') →
     EmbeddingServiceClient.get_embedding py_str service_url text model w
       = (Raise e, w')).
Proof.
  split.
  - intros first rest w' H.
    unfold EmbeddingServiceClient.get_embedding. run_M. by rewrite H.
  - intros e w' H.
    unfold EmbeddingServiceClient.get_embedding. run_M. by rewrite H.
Qed.

Lemma get_embedding_is_batch_of_one_witness :
  ∃ w',
    EmbeddingServiceClient.get_embeddings str_of_string "http://localhost:11434"
      ["hello"] None embedding_up = (Ok (JArr [sample_vector]), w')
    ∧ EmbeddingServiceClient.get_embedding str_of_string "http://localhost:11434"
        "hello" None embedding_up = (Ok sample_vector, w').
Proof.
  eexists. split; [reflexivity|].
  destruct (get_embedding_is_batch_of_one str_of_string "http://localhost:11434"
              "hello" None embedding_up) as [Hfirst _].
  apply (Hfirst sample_vector []). reflexivity.
Defined.

(** ** The decorated client methods *)

(** A first attempt that returns, or raises something that is not a
    network-class error, is the whole call. *)
Lemma with_retry_first_attempt {A} (max_retries : Z) (backoff_factor : Q)
    (func : M A) (w w' : world) (r : result A) :
  0 ≤ max_retries →
  func w = (r, w') →
  transient r = false →
  with_retry max_retries backoff_factor func w = (r, w').
Proof.
  intros Hmax Hf Hr. unfold with_retry. rewrite with_retry_range by done.
  simpl seq. rewrite fmap_cons. cbn [retry_loop].
  cbv [retry_attempt]. run_M. rewrite Hf.
  destruct r as [a|e]; [done|]. simpl in Hr. by rewrite Hr.
Qed.

Lemma session_outcome_failure (service_name : string) (o : result response) :
  transport_failure o = true →
  ∃ msg, session_outcome service_name o = Raise (Exception msg).
Proof.
  unfold transport_failure, session_outcome. destruct o as [r|e].
  - intros [-> _]%andb_prop. eauto.
  - intros H. destruct (is_Timeout (exn_cls e)); [by eauto|].
    destruct (is_ConnectionError (exn_cls e)); [by eauto|].
    destruct (is_HTTPError (exn_cls e)); [|done].
    destruct (exn_response e); [by eauto | done].
Qed.

(** Claim C3.  A [transcribe] call on a readable file to which the backend
    answers 202 with a JSON object (the queued notice) raises the busy
    condition, [Exception] with the message naming the busy, queued state
    followed by the notice's ['message'] entry.  It does so after one
    network call, without any sleep: the retry loop does not iterate. *)
Theorem transcribe_busy (py_str : json → string)
    (service_url audio_file_path language : string)
    (w : world) (r : response) (d : gmap string json) :
  readable w audio_file_path = true →
  net w (net_calls w) (STTServiceClient.transcribe_request service_url audio_file_path language)
    = Ok r →
  status_code r = 202 →
  json_body r = Ok (JObj d) →
  ∃ w',
    STTServiceClient.transcribe py_str service_url audio_file_path language w
      = (Raise (Exception ("STT服務繁忙，請求已加入隊列: "
                           +:+ py_str (default (JStr "") (d !! "message")))), w')
    ∧ net_calls w' = S (net_calls w)
    ∧ slept w' = slept w.
Proof.
  intros Hfile Hnet Hcode Hbody.
  exists (set_net_calls (S (net_calls w)) w). split; [|done].
  unfold STTServiceClient.transcribe.
  apply with_retry_first_attempt; [lia | | reflexivity].
  cbv [STTServiceClient.transcribe_func open_rb]. run_M. rewrite Hfile.
  rewrite ServiceSession_request_outcome, Hnet. unfold session_outcome.
  rewrite Hcode. rewrite bool_decide_false by lia.
  rewrite Hbody. rewrite bool_decide_false by lia.
  rewrite bool_decide_true by done. reflexivity.
Qed.

Lemma transcribe_busy_witness :
  ∃ w',
    STTServiceClient.transcribe str_of_string "http://localhost:5003" "a.wav"
      "zh-TW" stt_queues
      = (Raise (Exception "STT服務繁忙，請求已加入隊列: Request queued"), w')
    ∧ net_calls w' = 1%nat
    ∧ slept w' = [].
Proof.
  apply (transcribe_busy str_of_string "http://localhost:5003" "a.wav" "zh-TW"
           stt_queues (Response 202 "" (Ok queued_notice)) queued_fields);
    reflexivity.
Defined.


(** Against claim C3 as stated: the body is decoded before the status is
    looked at.  A 202 whose body is a JSON list ends the call with an
    AttributeError, not with the busy condition; a 202 whose body is not
    JSON is retried, three calls and the two sleeps of the schedule, and
    ends with the decoding error. *)
Lemma transcribe_202_not_always_busy :
  (∃ w',
     STTServiceClient.transcribe str_of_string "http://localhost:5003" "a.wav"
       "zh-TW" stt_202_list
       = (Raise (Exn E_AttributeError
                     "'list' object has no attribute 'get'" None), w')
     ∧ net_calls w' = 1%nat)
  ∧ (∃ w',
       STTServiceClient.transcribe str_of_string "http://localhost:5003" "a.wav"
         "zh-TW" stt_202_garbled
         = (Raise (Exn E_InvalidJSONError
                       "Expecting value: line 1 column 1 (char 0)" None), w')
       ∧ net_calls w' = 3%nat
       ∧ slept w' = backoff_schedule (1 # 2) 2).
Proof.
  split; eexists; repeat split; reflexivity.
Qed.

(** A 202 whose body decodes, to whatever JSON value, ends the call at the
    first attempt: one network call, no sleep. *)
Lemma transcribe_202_single_attempt (py_str : json → string)
    (service_url audio_file_path language : string)
    (w : world) (r : response) (body : json) :
  readable w audio_file_path = true →
  net w (net_calls w) (STTServiceClient.transcribe_request service_url audio_file_path language)
    = Ok r →
  status_code r = 202 →
  json_body r = Ok body →
  ∃ e,
    STTServiceClient.transcribe py_str service_url audio_file_path language w
      = (Raise e, set_net_calls (S (net_calls w)) w)
    ∧ is_RequestException (exn_cls e) = false.
Proof.
  intros Hfile Hnet Hcode Hbody.
  assert (∃ e, STTServiceClient.transcribe_func py_str service_url audio_file_path
                 language w = (Raise e, set_net_calls (S (net_calls w)) w)
               ∧ is_RequestException (exn_cls e) = false) as (e & He & Hcls).
  { cbv [STTServiceClient.transcribe_func open_rb]. run_M. rewrite Hfile.
    rewrite ServiceSession_request_outcome, Hnet. unfold session_outcome.
    rewrite Hcode. rewrite bool_decide_false by lia.
    rewrite Hbody. rewrite bool_decide_false by lia.
    rewrite bool_decide_true by done.
    destruct body; by eauto. }
  exists e. split; [|done].
  unfold STTServiceClient.transcribe.
  by apply with_retry_first_attempt; [lia | |].
Qed.

(** Claim C4, for the failures [ServiceSession.request] has a clause for.
    A timeout, a connection error or an error status that is handed back
    (one outside the transport's force list) leaves
    [ServiceSession.request] as a plain [Exception], which is not a
    [requests] exception.  So [transcribe] (on a readable file) and
    [synthesize] raise that plain [Exception] after a single network call
    and without sleeping: for these failures the decorator's
    sleep-and-call-again branch is never taken. *)
Theorem transport_failure_not_retried (py_str : json → string)
    (service_name : string) (req : http_request)
    (service_url audio_file_path temp_dir text language : string) (w : world) :
  (transport_failure (net w (net_calls w) req) = true →
   ∃ msg w',
     ServiceSession.request service_name req w = (Raise (Exception msg), w')
     ∧ is_RequestException (exn_cls (Exception msg)) = false)
  ∧ (readable w audio_file_path = true →
     transport_failure
       (net w (net_calls w)
          (STTServiceClient.transcribe_request service_url audio_file_path language))
       = true →
     ∃ msg w',
       STTServiceClient.transcribe py_str service_url audio_file_path language w
         = (Raise (Exception msg), w')
       ∧ net_calls w' = S (net_calls w)
       ∧ slept w' = slept w)
  ∧ (transport_failure
       (net w (net_calls w)
          (TTSServiceClient.synthesize_request service_url text language))
       = true →
     ∃ msg w',
       TTSServiceClient.synthesize py_str service_url temp_dir text language w
         = (Raise (Exception msg), w')
       ∧ net_calls w' = S (net_calls w)
       ∧ slept w' = slept w).
Proof.
  split; [|split].
  - intros Hfail. rewrite ServiceSession_request_outcome.
    destruct (session_outcome_failure service_name _ Hfail) as [msg ->].
    by eauto.
  - intros Hfile Hfail.
    destruct (session_outcome_failure "STT" _ Hfail) as [msg Hmsg].
    exists msg, (set_net_calls (S (net_calls w)) w). split; [|done].
    unfold STTServiceClient.transcribe.
    apply with_retry_first_attempt; [lia | | reflexivity].
    cbv [STTServiceClient.transcribe_func open_rb]. run_M. rewrite Hfile.
    by rewrite ServiceSession_request_outcome, Hmsg.
  - intros Hfail.
    destruct (session_outcome_failure "TTS" _ Hfail) as [msg Hmsg].
    exists msg, (set_net_calls (S (net_calls w)) w). split; [|done].
    unfold TTSServiceClient.synthesize.
    apply with_retry_first_attempt; [lia | | reflexivity].
    cbv [TTSServiceClient.synthesize_func]. run_M.
    by rewrite ServiceSession_request_outcome, Hmsg.
Qed.

Lemma transport_failure_not_retried_witness :
  (∃ msg w',
     STTServiceClient.transcribe str_of_string "http://localhost:5003" "a.wav"
       "zh-TW" quiet_world = (Raise (Exception msg), w')
     ∧ net_calls w' = 1%nat ∧ slept w' = [])
  ∧ (∃ msg w',
     TTSServiceClient.synthesize str_of_string "http://localhost:5004" "/tmp/tts_cache"
       "Hello" "en" backend_404 = (Raise (Exception msg), w')
     ∧ net_calls w' = 1%nat ∧ slept w' = []).
Proof.
  split.
  - destruct (transport_failure_not_retried str_of_string "STT"
                (http_get "http://localhost:5003/health" 5)
                "http://localhost:5003" "a.wav" "/tmp/tts_cache" "Hello" "zh-TW"
                quiet_world) as (_ & H & _).
    apply H; reflexivity.
  - destruct (transport_failure_not_retried str_of_string "TTS"
                (http_get "http://localhost:5004/health" 5)
                "http://localhost:5004" "a.wav" "/tmp/tts_cache" "Hello" "en"
                backend_404) as (_ & _ & H).
    apply H; reflexivity.
Defined.

(** Against claim C4 as stated: the conversion covers the three clauses
    only.  A [requests] exception of another class leaves
    [ServiceSession.request] as it is, and such is the RetryError by which
    the transport reports a 500 that persisted: it is still a [requests]
    exception, and the decorator does retry on it, three calls and the two
    sleeps of the schedule. *)
Lemma retry_error_is_retried :
  (∃ w',
     ServiceSession.request "STT"
       (STTServiceClient.transcribe_request "http://localhost:5003" "a.wav" "zh-TW")
       transport_exhausted
       = (Raise (Exn E_RetryError "too many 500 error responses" None), w'))
  ∧ is_RequestException E_RetryError = true
  ∧ ∃ w',
      STTServiceClient.transcribe str_of_string "http://localhost:5003" "a.wav"
        "zh-TW" transport_exhausted
        = (Raise (Exn E_RetryError "too many 500 error responses" None), w')
      ∧ net_calls w' = 3%nat
      ∧ slept w' = backoff_schedule (1 # 2) 2.
Proof.
  split; [|split]; [eexists; reflexivity | reflexivity |].
  eexists. split; [reflexivity|]. split; reflexivity.
Qed.

(** ** The lazy singletons *)

(** A caller scheduled alone goes through the body of [get_service]. *)
Lemma caller_alone (g : singleton) (w : world) :
  match get_service g w with
  | (Ok r, w') => run_schedule g [0; 0; 0; 0]%nat ([AtTest], w) = ([Done r], w')
  | (Raise e, w') => run_schedule g [0; 0; 0; 0]%nat ([AtTest], w) = ([Raised e], w')
  end.
Proof.
  destruct g; destruct w as [? ? ? ? ? ? ? ? ? [rag|] [crm|] ? fault runs];
    try reflexivity;
    cbv [get_service run_schedule sched_step caller_step construct load store
         foldl]; run_M; simpl; destruct (fault runs); reflexivity.
Qed.

Lemma get_service_loaded (g : singleton) (w : world) (obj : nat) :
  load g w = (Ok (Some obj), w) →
  get_service g w = (Ok (Some obj), w).
Proof.
  intros H. cbv [get_service]. run_M. rewrite H. by rewrite H.
Qed.

Lemma call_n_loaded (g : singleton) (obj : nat) (n : nat) (w : world) :
  load g w = (Ok (Some obj), w) →
  call_n g n w = (Ok (replicate n (Some obj)), w).
Proof.
  intros H. induction n as [|n IH]; [reflexivity|].
  cbn [call_n]. run_M. rewrite (get_service_loaded g w obj H).
  fold (call_n g n). by rewrite IH.
Qed.

(** Claim C10, as the code has it: with calls that do not overlap.  From a
    world in which the global is still [None], when the constructor
    returns, [n >= 1] successive calls build one object, in the first call,
    and every call returns that object.  When the constructor raises, the
    call raises the same, nothing is built and the global stays [None]. *)
Theorem singleton_built_once_sequentially (g : singleton) (n : nat) (w : world) :
  (0 < n)%nat →
  load g w = (Ok None, w) →
  (constructor_fault w (constructor_runs w) = None →
   ∃ w',
     call_n g n w = (Ok (replicate n (Some (constructed w))), w')
     ∧ constructed w' = S (constructed w))
  ∧ (∀ e, constructor_fault w (constructor_runs w) = Some e →
       ∃ w',
         get_service g w = (Raise e, w')
         ∧ load g w' = (Ok None, w')
         ∧ constructed w' = constructed w).
Proof.
  intros Hn Hnone. split.
  - intros Hbuilds. destruct n as [|n]; [lia|].
    set (w0 := set_constructor_runs (S (constructor_runs w)) w).
    set (w1 := match g with
               | RAG => set_services (Some (constructed w)) (crm_service w)
                                     (S (constructed w)) w0
               | CRM => set_services (rag_service w) (Some (constructed w))
                                     (S (constructed w)) w0
               end).
    assert (Hfirst : get_service g w = (Ok (Some (constructed w)), w1)).
    { cbv [get_service construct]. run_M. rewrite Hnone, Hbuilds.
      destruct g; reflexivity. }
    assert (Hloaded : load g w1 = (Ok (Some (constructed w)), w1))
      by (destruct g; reflexivity).
    exists w1. split.
    + cbn [call_n]. run_M. rewrite Hfirst. fold (call_n g n).
      by rewrite (call_n_loaded g _ n w1 Hloaded).
    + destruct g; reflexivity.
  - intros e Hfault. eexists. split; [|split].
    + cbv [get_service construct]. run_M. rewrite Hnone, Hfault. reflexivity.
    + revert Hnone. unfold load. destruct g; simpl; by intros [= ->].
    + reflexivity.
Qed.

Lemma singleton_built_once_sequentially_witness :
  ∃ w', call_n RAG 3 quiet_world = (Ok [Some 0; Some 0; Some 0]%nat, w')
        ∧ constructed w' = 1%nat.
Proof.
  destruct (singleton_built_once_sequentially RAG 3 quiet_world) as [Hok _];
    [lia | reflexivity | ].
  by apply Hok.
Defined.

(** Claim C10 as stated fails: two callers arriving together, both
    testing the global before either assigns it, build two objects and
    return different ones. *)
Lemma concurrent_first_access_builds_twice :
  ∃ cs w',
    run_schedule RAG [0; 1; 0; 0; 0; 1; 1; 1]%nat (arrivals 2, quiet_world)
      = (cs, w')
    ∧ all_done cs = true
    ∧ cs = [Done (Some 0%nat); Done (Some 1%nat)]
    ∧ constructed w' = 2%nat.
Proof. eexists _, _. repeat split; reflexivity. Qed.

(** In the step model too, callers scheduled one after the other build one
    object and all return it. *)
Example sequential_schedule_builds_once :
  ∃ w',
    run_schedule CRM (sequential_schedule 3) (arrivals 3, quiet_world)
      = (replicate 3 (Done (Some 0%nat)), w')
    ∧ constructed w' = 1%nat.
Proof. eexists. split; reflexivity. Qed.

(** * Further properties of the client layer *)

(** ** The retry decorator on any operation *)

(** One iteration that ends the loop: the attempt returned, raised
    something that is not network-class, or was the last of the range. *)
Lemma retry_loop_ends {A} (max_retries : Z) (backoff_factor : Q) (func : M A)
    (attempt : Z) (rest : list Z) (last : option exn)
    (w w1 : world) (r : result A) :
  func w = (r, w1) →
  transient r = false ∨ (∃ e, r = Raise e) ∧ ¬ attempt < max_retries →
  retry_loop max_retries backoff_factor func (attempt :: rest) last w = (r, w1).
Proof.
  intros Hf Hend. cbn [retry_loop]. cbv [retry_attempt]. run_M. rewrite Hf.
  destruct r as [a|e]; [done|].
  destruct Hend as [Hnt | [_ Hlast]].
  - simpl in Hnt. by rewrite Hnt.
  - destruct (is_RequestException (exn_cls e)); [|done].
    by rewrite bool_decide_false.
Qed.

(** One iteration that goes on: a network-class error before the last
    attempt is followed by the sleep of the schedule. *)
Lemma retry_loop_goes_on {A} (max_retries : Z) (backoff_factor : Q) (func : M A)
    (attempt : Z) (rest : list Z) (last : option exn)
    (w w1 : world) (e : exn) :
  can_wait backoff_factor attempt = true →
  func w = (Raise e, w1) →
  is_RequestException (exn_cls e) = true →
  attempt < max_retries →
  retry_loop max_retries backoff_factor func (attempt :: rest) last w
  = retry_loop max_retries backoff_factor func rest (Some e)
      (set_slept (slept w1 ++ [scheduled_wait backoff_factor attempt]) w1).
Proof.
  intros Hwait Hf He Hlt. cbn [retry_loop]. cbv [retry_attempt]. run_M.
  rewrite Hf, He. rewrite bool_decide_true by done.
  by destruct (can_wait_sleeps _ _ w1 Hwait) as [-> ->].
Qed.

(** With a negative [max_retries] the range of attempts is empty: the
    decorated function is never called, and the final [raise
    last_exception] of the wrapper, with [last_exception] still [None], is
    a TypeError. *)
Theorem with_retry_negative_never_calls {A} (max_retries : Z)
    (backoff_factor : Q) (func : M A) (w : world) :
  max_retries < 0 →
  with_retry max_retries backoff_factor func w
  = (Raise (Exn E_TypeError "exceptions must derive from BaseException" None), w).
Proof.
  intros Hneg. unfold with_retry, py_range.
  replace (Z.to_nat (max_retries + 1)) with 0%nat by lia. reflexivity.
Qed.

Lemma with_retry_negative_never_calls_witness :
  with_retry (-1) (1 # 2) (scripted flaky_twice) quiet_world
  = (Raise (Exn E_TypeError "exceptions must derive from BaseException" None),
     quiet_world).
Proof. apply with_retry_negative_never_calls. lia. Defined.




(** ** Retries of the decorated methods *)

(** Equality of two worlds built from the same one by the setters. *)
Ltac world_eq :=
  unfold after_calls, set_net_calls, set_slept, set_tmp_files, set_oai_calls;
  simpl; f_equal; try lia;
  rewrite ?app_nil_r, <- ?app_assoc; try done.

Lemma after_calls_0 (w : world) : after_calls 0 [] w = w.
Proof.
  destruct w. unfold after_calls, set_net_calls, set_slept. simpl.
  f_equal; [lia | by rewrite app_nil_r].
Qed.

Lemma session_outcome_passes_through (service_name : string) (e : exn) :
  passes_through e = true →
  session_outcome service_name (Raise e) = Raise e.
Proof.
  unfold passes_through, session_outcome. intros H.
  destruct (is_Timeout (exn_cls e)); [by rewrite andb_false_r in H|].
  destruct (is_ConnectionError (exn_cls e));
    [by rewrite andb_false_r in H|].
  destruct (is_HTTPError (exn_cls e)); [by rewrite andb_false_r in H|].
  done.
Qed.

Lemma passes_through_transient (e : exn) :
  passes_through e = true → is_RequestException (exn_cls e) = true.
Proof.
  unfold passes_through. intros H.
  by destruct (is_RequestException (exn_cls e)).
Qed.

Section pass_through_chain.
Context {A : Type}.
Variables (max_retries : Z) (backoff_factor : Q).
Variable func : M A.
Variable req : http_request.
Variable w0 : world.
Hypothesis waits_ok : ∀ attempt,
  0 ≤ attempt < max_retries → can_wait backoff_factor attempt = true.

(** Worlds that differ from [w0] in the calls made and the sleeps only. *)
Let similar (w : world) : Prop :=
  ∃ j sleeps, w = after_calls j sleeps w0.

(** The operation makes one network call and, when that call raises an
    exception that passes through the session, raises it too. *)
Hypothesis raises_what_passes : ∀ w e,
  similar w →
  net w0 (net_calls w) req = Raise e →
  passes_through e = true →
  func w = (Raise e, after_calls 1 [] w).

Lemma after_calls_similar j sleeps w :
  similar w → similar (after_calls j sleeps w).
Proof.
  intros (j1 & s1 & ->). exists (j1 + j)%nat, (s1 ++ sleeps).
  destruct w0. unfold after_calls, set_net_calls, set_slept. simpl.
  f_equal; [lia | by rewrite app_assoc].
Qed.

(** After [j] calls that raised exceptions passing through, attempts
    [s + j ..] of the range are left, [j] calls were made and the waits of
    attempts [s .. s + j - 1] slept. *)
Lemma retry_loop_after_pass_through (j : nat) : ∀ (s n : nat) last w,
  similar w →
  (∀ i, (i < j)%nat →
     ∃ e, net w0 (net_calls w + i) req = Raise e ∧ passes_through e = true) →
  (j < n)%nat →
  Z.of_nat s + Z.of_nat n ≤ max_retries + 1 →
  ∃ last',
    retry_loop max_retries backoff_factor func (Z.of_nat <$> seq s n) last w
    = retry_loop max_retries backoff_factor func
        (Z.of_nat <$> seq (s + j) (n - j)) last'
        (after_calls j (waits_from backoff_factor s j) w).
Proof.
  induction j as [|j IH]; intros s n last w Hsim Hfail Hjn Hrange.
  - exists last. rewrite Nat.add_0_r, Nat.sub_0_r.
    unfold waits_from. simpl. by rewrite after_calls_0.
  - destruct n as [|n]; [lia|]. simpl seq. rewrite fmap_cons.
    destruct (Hfail 0%nat ltac:(lia)) as (e & He & Hpass).
    rewrite Nat.add_0_r in He.
    rewrite (retry_loop_goes_on _ _ _ _ _ _ w (after_calls 1 [] w) e);
      [| apply waits_ok; lia | by apply raises_what_passes
       | by apply passes_through_transient | lia].
    destruct (IH (S s) n (Some e)
                (set_slept (slept (after_calls 1 [] w)
                            ++ [scheduled_wait backoff_factor (Z.of_nat s)])
                   (after_calls 1 [] w)))
      as [last' Hrest].
    + destruct Hsim as (j1 & s1 & ->).
      exists (j1 + 1)%nat, (s1 ++ [scheduled_wait backoff_factor (Z.of_nat s)]).
      destruct w0. world_eq.
    + intros i Hi.
      destruct (Hfail (S i) ltac:(lia)) as (e' & He' & Hpass').
      exists e'. split; [|done]. rewrite <- He'. f_equal.
      destruct w. simpl. lia.
    + lia.
    + lia.
    + exists last'. rewrite Hrest.
      replace (S s + j)%nat with (s + S j)%nat by lia.
      replace (S n - S j)%nat with (n - j)%nat by lia.
      f_equal. destruct w. unfold waits_from. simpl seq. rewrite !fmap_cons.
      world_eq.
Qed.

End pass_through_chain.

Lemma set_net_calls_after (w : world) :
  set_net_calls (S (net_calls w)) w = after_calls 1 [] w.
Proof. destruct w. world_eq. Qed.

Lemma after_calls_after_calls j k s1 s2 w :
  after_calls k s2 (after_calls j s1 w) = after_calls (j + k) (s1 ++ s2) w.
Proof. destruct w. world_eq. Qed.

Lemma transcribe_func_passes_through (py_str : json → string)
    (service_url audio_file_path language : string) (w : world) (e : exn) :
  readable w audio_file_path = true →
  net w (net_calls w)
    (STTServiceClient.transcribe_request service_url audio_file_path language)
    = Raise e →
  passes_through e = true →
  STTServiceClient.transcribe_func py_str service_url audio_file_path language w
  = (Raise e, after_calls 1 [] w).
Proof.
  intros Hfile Hnet Hpass.
  cbv [STTServiceClient.transcribe_func open_rb]. run_M. rewrite Hfile.
  rewrite ServiceSession_request_outcome, Hnet.
  rewrite session_outcome_passes_through by done.
  by rewrite set_net_calls_after.
Qed.

Lemma transcribe_func_success (py_str : json → string)
    (service_url audio_file_path language : string) (w : world)
    (r : response) (d : gmap string json) :
  readable w audio_file_path = true →
  net w (net_calls w)
    (STTServiceClient.transcribe_request service_url audio_file_path language)
    = Ok r →
  status_code r = 200 →
  json_body r = Ok (JObj d) →
  STTServiceClient.transcribe_func py_str service_url audio_file_path language w
  = (Ok (default (JStr "") (d !! "transcription")), after_calls 1 [] w).
Proof.
  intros Hfile Hnet Hcode Hbody.
  cbv [STTServiceClient.transcribe_func open_rb]. run_M. rewrite Hfile.
  rewrite ServiceSession_request_outcome, Hnet. unfold session_outcome.
  rewrite Hcode. rewrite bool_decide_false by lia.
  rewrite Hbody. rewrite bool_decide_true by done.
  by rewrite set_net_calls_after.
Qed.

(** [transcribe] on a readable file, when the session raises exceptions it
    has no clause for (a RetryError, say):
    - after [j <= 2] such failures, a 200 answer with a JSON object makes
      the call return the ['transcription'] entry (the empty string when
      there is none), after [j + 1] network calls and the waits [0.5 * 2^i]
      of attempts [i < j];
    - three such failures in a row make it raise the third exception,
      after three network calls and the waits 0.5 and 1.0. *)
Theorem transcribe_retries_what_passes_through (py_str : json → string)
    (service_url audio_file_path language : string) (w : world) :
  readable w audio_file_path = true →
  let req := STTServiceClient.transcribe_request service_url audio_file_path language in
  (∀ (j : nat) (r : response) (d : gmap string json),
     (j ≤ 2)%nat →
     (∀ i, (i < j)%nat →
        ∃ e, net w (net_calls w + i) req = Raise e ∧ passes_through e = true) →
     net w (net_calls w + j) req = Ok r →
     status_code r = 200 →
     json_body r = Ok (JObj d) →
     STTServiceClient.transcribe py_str service_url audio_file_path language w
     = (Ok (default (JStr "") (d !! "transcription")),
        after_calls (j + 1) (backoff_schedule (1 # 2) j) w))
  ∧ ((∀ i, (i < 3)%nat →
        ∃ e, net w (net_calls w + i) req = Raise e ∧ passes_through e = true) →
     ∃ e, net w (net_calls w + 2) req = Raise e
          ∧ STTServiceClient.transcribe py_str service_url audio_file_path language w
            = (Raise e, after_calls 3 (backoff_schedule (1 # 2) 2) w)).
Proof.
  intros Hfile req.
  assert (Hshape : ∀ w1 e,
    (∃ j sleeps, w1 = after_calls j sleeps w) →
    net w (net_calls w1) req = Raise e →
    passes_through e = true →
    STTServiceClient.transcribe_func py_str service_url audio_file_path language w1
    = (Raise e, after_calls 1 [] w1)).
  { intros w1 e (j & sl & ->) Hnet Hpass.
    by apply transcribe_func_passes_through. }
  assert (Hw : ∃ j sleeps, w = after_calls j sleeps w)
    by (exists 0%nat, []; by rewrite after_calls_0).
  split.
  - intros j r d Hj Hfail Hnet Hcode Hbody.
    unfold STTServiceClient.transcribe, with_retry.
    change (py_range (2 + 1)) with (Z.of_nat <$> seq 0 3).
    destruct (retry_loop_after_pass_through 2 (1 # 2) _ req w
                (waits_allowed_below (1 # 2) 2 eq_refl) Hshape j 0 3 None w Hw Hfail
                ltac:(lia) ltac:(lia)) as [last' ->].
    destruct (3 - j)%nat as [|m] eqn:Hm; [lia|]. simpl seq. rewrite fmap_cons.
    erewrite retry_loop_ends;
      [| by apply (transcribe_func_success _ _ _ _ _ r d) | by left].
    rewrite after_calls_after_calls. unfold backoff_schedule, py_range, waits_from.
    by rewrite Nat2Z.id, app_nil_r.
  - intros Hfail.
    destruct (Hfail 2%nat ltac:(lia)) as (e & He & Hpass).
    exists e. split; [done|].
    unfold STTServiceClient.transcribe, with_retry.
    change (py_range (2 + 1)) with (Z.of_nat <$> seq 0 3).
    destruct (retry_loop_after_pass_through 2 (1 # 2) _ req w
                (waits_allowed_below (1 # 2) 2 eq_refl) Hshape 2 0 3 None w Hw
                ltac:(intros; apply Hfail; lia)
                ltac:(lia) ltac:(lia)) as [last' ->].
    simpl seq. rewrite fmap_cons.
    erewrite retry_loop_ends;
      [| by apply (transcribe_func_passes_through _ _ _ _ _ e)
       | right; split; [by eauto | simpl; lia]].
    rewrite after_calls_after_calls. unfold backoff_schedule, py_range, waits_from.
    by rewrite app_nil_r.
Qed.

Lemma transcribe_retries_what_passes_through_witness :
  STTServiceClient.transcribe str_of_string "http://localhost:5003" "a.wav" "en-US"
    recovers_after_one
  = (Ok (JStr "hello"), after_calls 2 (backoff_schedule (1 # 2) 1) recovers_after_one)
  ∧ ∃ e, STTServiceClient.transcribe str_of_string "http://localhost:5003" "a.wav"
           "en-US" transport_exhausted
         = (Raise e, after_calls 3 (backoff_schedule (1 # 2) 2) transport_exhausted).
Proof.
  split.
  - destruct (transcribe_retries_what_passes_through str_of_string
                "http://localhost:5003" "a.wav" "en-US" recovers_after_one
                eq_refl) as [Hok _].
    assert (Hfirst : ∀ i, (i < 1)%nat →
              ∃ e, net recovers_after_one (net_calls recovers_after_one + i)
                     (STTServiceClient.transcribe_request "http://localhost:5003"
                        "a.wav" "en-US") = Raise e
                   ∧ passes_through e = true).
    { intros i Hi. destruct i as [|i]; [|lia]. eexists. split; reflexivity. }
    exact (Hok 1%nat (Response 200 "RIFFdata"
                        (Ok (JObj {[ "transcription" := JStr "hello" ]})))
             {[ "transcription" := JStr "hello" ]}
             ltac:(lia) Hfirst eq_refl eq_refl eq_refl).
  - destruct (transcribe_retries_what_passes_through str_of_string
                "http://localhost:5003" "a.wav" "en-US" transport_exhausted
                eq_refl) as [_ Hex].
    destruct Hex as (e & _ & He).
    + intros i Hi. eexists. split; reflexivity.
    + by exists e.
Defined.

(** [transcribe] on a file that cannot be opened raises the error of
    [open] at once: no network call is made and nothing is slept, since an
    OSError is not a [requests] exception. *)
Theorem transcribe_unreadable_file (py_str : json → string)
    (service_url audio_file_path language : string) (w : world) :
  readable w audio_file_path = false →
  ∃ e,
    STTServiceClient.transcribe py_str service_url audio_file_path language w
      = (Raise e, w)
    ∧ exn_cls e = E_OSError.
Proof.
  intros Hfile.
  exists (Exn E_OSError ("No such file or directory: " +:+ audio_file_path) None).
  split; [|reflexivity].
  unfold STTServiceClient.transcribe.
  apply with_retry_first_attempt; [lia | | reflexivity].
  cbv [STTServiceClient.transcribe_func open_rb]. run_M. by rewrite Hfile.
Qed.

Lemma transcribe_unreadable_file_witness :
  ∃ e,
    STTServiceClient.transcribe str_of_string "http://localhost:5003" "a.wav" "zh"
      no_files = (Raise e, no_files)
    ∧ exn_cls e = E_OSError.
Proof.
  apply (transcribe_unreadable_file str_of_string "http://localhost:5003" "a.wav"
           "zh" no_files).
  reflexivity.
Defined.

(** [transcribe] on a readable file whose request is answered (any status)
    with a body that decodes to a JSON object ends at the first attempt:
    one network call, nothing slept.  A 200 returns the ['transcription']
    entry, the empty string when the entry is missing; a status that is
    neither 200 nor 202 nor an error one (a 204, a 301) raises the service
    error with the status and the ['error'] entry. *)
Theorem transcribe_answered_once (py_str : json → string)
    (service_url audio_file_path language : string)
    (w : world) (r : response) (d : gmap string json) :
  readable w audio_file_path = true →
  net w (net_calls w)
    (STTServiceClient.transcribe_request service_url audio_file_path language)
    = Ok r →
  json_body r = Ok (JObj d) →
  ∃ res,
    STTServiceClient.transcribe py_str service_url audio_file_path language w
      = (res, after_calls 1 [] w)
    ∧ (status_code r = 200 → res = Ok (default (JStr "") (d !! "transcription")))
    ∧ (status_code r ≠ 200 → status_code r ≠ 202 → ¬ 400 ≤ status_code r < 600 →
       res = Raise (Exception ("STT服務錯誤: " +:+ pretty (status_code r) +:+ " - "
                               +:+ py_str (default (JStr "") (d !! "error"))))).
Proof.
  intros Hfile Hnet Hbody.
  assert (∃ res,
    STTServiceClient.transcribe_func py_str service_url audio_file_path language w
      = (res, after_calls 1 [] w)
    ∧ transient res = false
    ∧ (status_code r = 200 → res = Ok (default (JStr "") (d !! "transcription")))
    ∧ (status_code r ≠ 200 → status_code r ≠ 202 → ¬ 400 ≤ status_code r < 600 →
       res = Raise (Exception ("STT服務錯誤: " +:+ pretty (status_code r) +:+ " - "
                               +:+ py_str (default (JStr "") (d !! "error"))))))
    as (res & Hres & Hnt & H200 & Hother).
  { cbv [STTServiceClient.transcribe_func open_rb]. run_M. rewrite Hfile.
    rewrite ServiceSession_request_outcome, Hnet. unfold session_outcome.
    rewrite set_net_calls_after.
    case_bool_decide as Herr; [eexists; repeat split; (done || lia)|].
    rewrite Hbody.
    case_bool_decide as H200; [eexists; repeat split; (done || lia)|].
    case_bool_decide as H202; eexists; repeat split; (done || lia). }
  exists res. split; [|done].
  unfold STTServiceClient.transcribe.
  by apply with_retry_first_attempt; [lia | |].
Qed.

Lemma transcribe_answered_once_witness :
  ∃ res,
    STTServiceClient.transcribe str_of_string "http://localhost:5003" "a.wav" "zh"
      backend_204 = (res, after_calls 1 [] backend_204)
    ∧ res = Raise (Exception "STT服務錯誤: 204 - ").
Proof.
  destruct (transcribe_answered_once str_of_string "http://localhost:5003" "a.wav"
              "zh" backend_204 (Response 204 "" (Ok (JObj ∅))) ∅
              eq_refl eq_refl eq_refl) as (res & Hres & _ & Hother).
  exists res. split; [exact Hres|].
  apply Hother; simpl; lia.
Defined.







(** ** The other operations of the Embedding and LLM clients *)

Lemma model_or_default_idempotent (model : option string) :
  EmbeddingServiceClient.model_or_default
    (Some (EmbeddingServiceClient.model_or_default model))
  = EmbeddingServiceClient.model_or_default model.
Proof.
  unfold EmbeddingServiceClient.model_or_default.
  destruct model as [m|]; [|reflexivity].
  destruct (decide (m = "")) as [->|Hne]; [reflexivity|].
  by rewrite !(bool_decide_false (m = "")).
Qed.

Lemma get_embeddings_defaulted (py_str : json → string) (service_url : string)
    (texts : list string) (model : option string) :
  EmbeddingServiceClient.get_embeddings py_str service_url texts
    (Some (EmbeddingServiceClient.model_or_default model))
  = EmbeddingServiceClient.get_embeddings py_str service_url texts model.
Proof.
  unfold EmbeddingServiceClient.get_embeddings.
  by rewrite model_or_default_idempotent.
Qed.

(** [get_embedding_batch_simple] makes one call to the alternate endpoint
    and then, with [primary] the call [get_embeddings(texts, model)] on the
    primary endpoint:
    - a 200 with a JSON object gives its ['embeddings'] entry (the empty
      list when missing), the primary endpoint is not called;
    - a call that raises, or a 200 whose body does not decode or is not an
      object, gives whatever [primary] gives, errors included;
    - any other status runs [primary], and when that raises runs it a
      second time, whose outcome is the result. *)
Theorem batch_simple_falls_back (py_str : json → string) (service_url : string)
    (texts : list string) (model : option string) (w : world) :
  let simple := EmbeddingServiceClient.get_embedding_batch_simple py_str
                  service_url texts model in
  let primary := EmbeddingServiceClient.get_embeddings py_str service_url
                   texts model in
  let w1 := after_calls 1 [] w in
  match net w (net_calls w) (batch_request service_url texts model) with
  | Ok r =>
      if bool_decide (status_code r = 200) then
        match json_body r with
        | Ok (JObj d) => simple w = (Ok (default (JArr []) (d !! "embeddings")), w1)
        | _ => simple w = primary w1
        end
      else
        match primary w1 with
        | (Ok v, w2) => simple w = (Ok v, w2)
        | (Raise _, w2) => simple w = primary w2
        end
  | Raise _ => simple w = primary w1
  end.
Proof.
  intros simple primary w1. subst simple primary w1.
  rewrite <- (get_embeddings_defaulted py_str service_url texts model).
  rewrite <- set_net_calls_after.
  cbv [EmbeddingServiceClient.get_embedding_batch_simple requests_request
       batch_request]. run_M.
  destruct (net w (net_calls w) _) as [r|e]; [|reflexivity].
  case_bool_decide.
  - destruct (json_body r) as [[]|]; reflexivity.
  - destruct (EmbeddingServiceClient.get_embeddings _ _ _ _ _) as [[v|e] w2];
      reflexivity.
Qed.


(** [generate] and [chat] never retry: whatever the completion call does,
    they make exactly one call to the LLM backend and sleep nothing, because
    their own handler turns every error into a plain [Exception] before the
    decorator sees it.  They return the content of the first choice, and
    raise the service error with the cause's text when the call raised or
    the answer has no choice. *)
Theorem completion_never_retried (prompt : string) (messages : list (string * string))
    (model : option string) (max_tokens : Z) (temperature : Q) (w : world) :
  ∃ res,
    LLMServiceClient.generate prompt model max_tokens temperature w
      = (res, set_oai_calls (S (oai_calls w)) w)
    ∧ LLMServiceClient.chat messages model w
      = (res, set_oai_calls (S (oai_calls w)) w)
    ∧ match oai_chat w (oai_calls w) with
      | Ok (content :: _) => res = Ok content
      | Ok [] => res = Raise (Exception "LLM服務錯誤: list index out of range")
      | Raise e => res = Raise (Exception ("LLM服務錯誤: " +:+ exn_str e))
      end.
Proof.
  assert (∃ res,
    LLMServiceClient.completion_func w = (res, set_oai_calls (S (oai_calls w)) w)
    ∧ transient res = false
    ∧ match oai_chat w (oai_calls w) with
      | Ok (content :: _) => res = Ok content
      | Ok [] => res = Raise (Exception "LLM服務錯誤: list index out of range")
      | Raise e => res = Raise (Exception ("LLM服務錯誤: " +:+ exn_str e))
      end) as (res & Hres & Hnt & Hcases).
  { cbv [LLMServiceClient.completion_func LLMServiceClient.chat_completions_create].
    run_M. destruct (oai_chat w (oai_calls w)) as [[|c cs]|e]; by eauto. }
  exists res. split; [|split; [|done]].
  - unfold LLMServiceClient.generate.
    by apply with_retry_first_attempt; [lia | |].
  - unfold LLMServiceClient.chat.
    by apply with_retry_first_attempt; [lia | |].
Qed.

(** ** Routes and health endpoints *)

(** [/api/tts/languages] and [/api/tts/voices] answer 200 on every world,
    with exactly what the client method returned (the hardcoded defaults
    when the backend is down): their own 500 branch is never taken. *)
Theorem tts_listing_routes_answer_200 (cfg : ServiceConfig) (w : world) :
  (∃ languages w',
     TTSServiceClient.get_available_languages (TTS_SERVICE_URL cfg) w
       = (Ok languages, w')
     ∧ get_tts_languages cfg w = (Ok (JObj {[ "languages" := languages ]}, 200), w'))
  ∧ (∃ voices w',
     TTSServiceClient.get_available_voices (TTS_SERVICE_URL cfg) w
       = (Ok voices, w')
     ∧ get_tts_voices cfg w = (Ok (JObj {[ "voices" := voices ]}, 200), w')).
Proof.
  split.
  - destruct (try_except_returns
                (response ← ServiceSession.request "TTS"
                   (http_get (TTS_SERVICE_URL cfg +:+ "/languages") 5);
                 if bool_decide (status_code response = 200) then
                   result ← lift_result (json_body response);
                   lift_result (py_get_default result "supported_languages" (JArr []))
                 else mret TTSServiceClient.default_languages)
                (λ e, mret TTSServiceClient.default_languages) w)
      as (languages & w' & H); [by eauto|].
    exists languages, w'. split; [exact H|].
    unfold get_tts_languages, try_except, mbind, M_bind.
    unfold TTSServiceClient.get_available_languages. by rewrite H.
  - destruct (try_except_returns
                (response ← ServiceSession.request "TTS"
                   (http_get (TTS_SERVICE_URL cfg +:+ "/voices") 5);
                 if bool_decide (status_code response = 200) then
                   result ← lift_result (json_body response);
                   lift_result (py_get_default result "voices" (JObj ∅))
                 else mret TTSServiceClient.default_voices)
                (λ e, mret TTSServiceClient.default_voices) w)
      as (voices & w' & H); [by eauto|].
    exists voices, w'. split; [exact H|].
    unfold get_tts_voices, try_except, mbind, M_bind.
    unfold TTSServiceClient.get_available_voices. by rewrite H.
Qed.

Lemma probed_probed a b c d w :
  probed c d (probed a b w) = probed (a + c) (b + d) w.
Proof. destruct w. unfold probed. world_eq. Qed.

Lemma probed_0 w : probed 0 0 w = w.
Proof. destruct w. unfold probed. world_eq. Qed.

Lemma stt_check_health_probes (service_url : string) (w : world) :
  ∃ report, STTServiceClient.check_health service_url w = (Ok report, probed 1 0 w).
Proof.
  cbv [STTServiceClient.check_health]. run_M.
  rewrite ServiceSession_request_outcome.
  replace (set_net_calls (S (net_calls w)) w) with (probed 1 0 w)
    by (destruct w; unfold probed; world_eq).
  destruct (session_outcome _ _) as [r|e]; [|by eauto].
  destruct (json_body r); by eauto.
Qed.

Lemma tts_check_health_probes (service_url : string) (w : world) :
  ∃ report, TTSServiceClient.check_health service_url w = (Ok report, probed 1 0 w).
Proof.
  cbv [TTSServiceClient.check_health]. run_M.
  rewrite ServiceSession_request_outcome.
  replace (set_net_calls (S (net_calls w)) w) with (probed 1 0 w)
    by (destruct w; unfold probed; world_eq).
  destruct (session_outcome _ _) as [r|e]; [|by eauto].
  case_bool_decide; [|by eauto]. destruct (json_body r); by eauto.
Qed.

Lemma embedding_check_health_probes (service_url : string) (w : world) :
  ∃ report,
    EmbeddingServiceClient.check_health service_url w = (Ok report, probed 1 0 w).
Proof.
  cbv [EmbeddingServiceClient.check_health requests_request]. run_M.
  replace (set_net_calls (S (net_calls w)) w) with (probed 1 0 w)
    by (destruct w; unfold probed; world_eq).
  destruct (net w (net_calls w) _) as [r|e]; [|by eauto].
  case_bool_decide; [|by eauto]. destruct (json_body r); by eauto.
Qed.

Lemma llm_check_health_probes (w : world) :
  ∃ report m, (1 ≤ m ≤ 2)%nat
    ∧ LLMServiceClient.check_health w = (Ok report, probed 0 m w).
Proof.
  cbv [LLMServiceClient.check_health LLMServiceClient.models_list
       LLMServiceClient.chat_completions_create]. run_M.
  destruct (oai_models w (oai_calls w)) as [models|e].
  - eexists _, 1%nat. split; [lia|]. f_equal. destruct w. unfold probed. world_eq.
  - cbn [oai_chat oai_calls set_oai_calls].
    destruct (oai_chat w (S (oai_calls w))) as [[|c choices]|e'];
      eexists _, 2%nat; (split; [lia|]); f_equal; destruct w; unfold probed; world_eq.
Qed.

(** Both health endpoints only probe: whatever the backends do and
    whether the endpoint answers or lets an exception escape, the world
    they leave differs from the one they found in the count of HTTP calls
    and of OpenAI client calls alone.  No service object is built, no
    global assigned, nothing slept, no file written.  [/api/health] makes
    at most three HTTP probes; [/api/v1/system/health] always answers,
    after exactly three.  Each makes one or two calls to the LLM client
    when it reaches it. *)
Theorem health_endpoints_only_probe (cfg : ServiceConfig) (w : world) :
  (∃ n m, (n ≤ 3)%nat ∧ (m ≤ 2)%nat ∧ (health_check cfg w).2 = probed n m w)
  ∧ (∃ body code m, (1 ≤ m ≤ 2)%nat
       ∧ poc_health_check cfg w = (Ok (body, code), probed 3 m w)).
Proof.
  split.
  - cbv [health_check reports_healthy rag_loaded crm_loaded]. run_M.
    destruct (stt_check_health_probes (STT_SERVICE_URL cfg) w) as [r1 ->].
    destruct (py_get r1 "status"); [|exists 1%nat, 0%nat; by repeat split; try lia].
    destruct (tts_check_health_probes (TTS_SERVICE_URL cfg) (probed 1 0 w))
      as [r2 ->]. rewrite probed_probed. cbn [Nat.add].
    destruct (py_get r2 "status"); [|exists 2%nat, 0%nat; by repeat split; try lia].
    destruct (embedding_check_health_probes (EMBEDDING_SERVICE_URL cfg) (probed 2 0 w))
      as [r3 ->]. rewrite probed_probed. cbn [Nat.add].
    destruct (py_get r3 "status"); [|exists 3%nat, 0%nat; by repeat split; try lia].
    destruct (llm_check_health_probes (probed 3 0 w)) as (r4 & m & Hm & ->).
    rewrite probed_probed. cbn [Nat.add].
    destruct (py_get r4 "status"); exists 3%nat, m; by repeat split; try lia.
  - cbv [poc_health_check reports_healthy rag_loaded]. run_M.
    destruct (stt_check_health_probes (STT_SERVICE_URL cfg) w) as [r1 ->].
    destruct (tts_check_health_probes (TTS_SERVICE_URL cfg) (probed 1 0 w))
      as [r2 ->]. rewrite probed_probed. cbn [Nat.add].
    destruct (embedding_check_health_probes (EMBEDDING_SERVICE_URL cfg) (probed 2 0 w))
      as [r3 ->]. rewrite probed_probed. cbn [Nat.add].
    destruct (llm_check_health_probes (probed 3 0 w)) as (r4 & m & Hm & ->).
    rewrite probed_probed. cbn [Nat.add].
    destruct (py_get r1 "status"); [|by eauto 10].
    destruct (py_get r3 "status") as [s3|]; [|by eauto 10].
    destruct (py_eq_str s3 "healthy").
    + destruct (py_get r4 "status") as [s4|]; [|by eauto 10].
      destruct (py_eq_str s4 "healthy"); simpl;
        (destruct (py_get r2 "status"); by eauto 10).
    + simpl. destruct (py_get r2 "status"); by eauto 10.
Qed.

(** What [/api/v1/system/health] reports when the four health results are
    dictionaries: its status is ['healthy'] exactly when STT, TTS,
    Embedding and LLM report healthy and the RAG service has been loaded,
    and ['partial'] otherwise, with its ['llm'] entry ['ready'] exactly
    when Embedding and LLM are healthy and RAG is loaded.  So with all
    four backends healthy but RAG not yet loaded it says ['partial'] where
    [/api/health] says ['healthy']. *)
Theorem poc_health_needs_rag_loaded (cfg : ServiceConfig) (w w1 w2 w3 w4 : world)
    (stt_health tts_health embedding_health llm_health : gmap string json) :
  STTServiceClient.check_health (STT_SERVICE_URL cfg) w = (Ok (JObj stt_health), w1) →
  TTSServiceClient.check_health (TTS_SERVICE_URL cfg) w1 = (Ok (JObj tts_health), w2) →
  EmbeddingServiceClient.check_health (EMBEDDING_SERVICE_URL cfg) w2
    = (Ok (JObj embedding_health), w3) →
  LLMServiceClient.check_health w3 = (Ok (JObj llm_health), w4) →
  let stt := py_eq_str (stt_health !! "status") "healthy" in
  let tts := py_eq_str (tts_health !! "status") "healthy" in
  let embedding := py_eq_str (embedding_health !! "status") "healthy" in
  let llm := py_eq_str (llm_health !! "status") "healthy" in
  let rag := is_not_None (rag_service w4) in
  poc_health_check cfg w
  = (Ok (JObj (list_to_map
           [("status", JStr (if stt && (embedding && llm && rag) && tts
                             then "healthy" else "partial"));
            ("services", JObj (list_to_map
               [("whisper", ready stt);
                ("llm", ready (embedding && llm && rag));
                ("tts", ready tts)]))]), 200), w4).
Proof.
  intros Hstt Htts Hemb Hllm stt tts embedding llm rag.
  cbv [poc_health_check reports_healthy rag_loaded]. run_M.
  rewrite Hstt, Htts, Hemb, Hllm. cbn [py_get].
  subst stt tts embedding llm rag.
  destruct (py_eq_str (embedding_health !! "status") "healthy"); [|reflexivity].
  destruct (py_eq_str (llm_health !! "status") "healthy"); reflexivity.
Qed.

Lemma poc_health_needs_rag_loaded_witness :
  ∃ body w',
    poc_health_check default_config all_up = (Ok (body, 200), w')
    ∧ status_of body = Some (JStr "partial").
Proof.
  eexists _, _. split.
  - eapply (poc_health_needs_rag_loaded default_config all_up); reflexivity.
  - reflexivity.
Defined.

(** ** The lazy singletons under any schedule *)

Lemma sched_step_moves (g : singleton) (i : nat) (cs : list caller) (w : world) :
  sched_step g i (cs, w) = (cs, w)
  ∨ ∃ c c' w', cs !! i = Some c
               ∧ caller_step g c w = (Ok c', w')
               ∧ sched_step g i (cs, w) = (<[i := c']> cs, w').
Proof.
  unfold sched_step. simpl.
  destruct (cs !! i) as [c|] eqn:Hc; [|by left].
  destruct (caller_step g c w) as [[c'|e] w'] eqn:Hstep.
  - right. by eauto 10.
  - destruct c; simpl in Hstep; cbv in Hstep; repeat case_match; simplify_eq.
Qed.

(** Once the global is set, a step of any caller leaves the world as it
    is, and callers are at the test, at the return, or done with the
    object of the global. *)
Lemma loaded_step (g : singleton) (obj : nat) (c c' : caller) (w w' : world) :
  load g w = (Ok (Some obj), w) →
  c = AtTest ∨ c = AtReturn ∨ c = Done (Some obj) →
  caller_step g c w = (Ok c', w') →
  w' = w ∧ (c' = AtTest ∨ c' = AtReturn ∨ c' = Done (Some obj)).
Proof.
  intros Hload Hc Hstep.
  destruct Hc as [-> | [-> | ->]]; revert Hstep; cbn [caller_step]; run_M;
    rewrite ?Hload; intros; simplify_eq; by eauto.
Qed.

Lemma loaded_schedule (g : singleton) (obj : nat) (schedule : list nat) :
  ∀ (cs : list caller) (w : world),
    load g w = (Ok (Some obj), w) →
    Forall (λ c, c = AtTest ∨ c = AtReturn ∨ c = Done (Some obj)) cs →
    (run_schedule g schedule (cs, w)).2 = w
    ∧ Forall (λ c, c = AtTest ∨ c = AtReturn ∨ c = Done (Some obj))
        (run_schedule g schedule (cs, w)).1.
Proof.
  induction schedule as [|i schedule IH]; intros cs w Hload Hcs; [done|].
  unfold run_schedule. cbn [foldl]. fold (run_schedule g schedule).
  destruct (sched_step_moves g i cs w) as [-> | (c & c' & w' & Hc & Hstep & ->)].
  - by apply IH.
  - assert (Hok : c = AtTest ∨ c = AtReturn ∨ c = Done (Some obj)).
    { rewrite Forall_forall in Hcs. apply Hcs. by eapply list_elem_of_lookup_2. }
    destruct (loaded_step g obj c c' w w' Hload Hok Hstep) as [-> Hc'].
    apply IH; [done|]. by apply Forall_insert.
Qed.

(** Once the global holds an object, callers of [get_rag_service] (or
    [get_crm_service]) arriving together, under every schedule: no object
    is built, the world is left as it was, and every caller that has
    returned has returned the object of the global. *)
Theorem loaded_singleton_is_stable (g : singleton) (obj : nat) (n : nat)
    (schedule : list nat) (w : world) :
  load g w = (Ok (Some obj), w) →
  (run_schedule g schedule (arrivals n, w)).2 = w
  ∧ ∀ r, Done r ∈ (run_schedule g schedule (arrivals n, w)).1 → r = Some obj.
Proof.
  intros Hload.
  destruct (loaded_schedule g obj schedule (arrivals n) w Hload) as [Hw Hcs].
  { unfold arrivals. apply Forall_replicate. by left. }
  split; [done|]. intros r Hr. rewrite Forall_forall in Hcs.
  destruct (Hcs _ Hr) as [? | [? | ?]]; by simplify_eq.
Qed.

(** [init_services] builds the RAG service only when the global is not
    set, and never touches the CRM global.  When the constructor returns
    (or is not needed) it leaves the RAG global set; after it, under every
    schedule of callers of [get_rag_service], nothing more is built and
    every caller that has returned has returned the preloaded object.
    When the constructor raises, [init_services] raises the same, and the
    RAG global is still [None]. *)
Theorem init_services_preloads_rag (n : nat) (schedule : list nat) (w : world) :
  ((rag_service w = None → constructor_fault w (constructor_runs w) = None) →
   ∃ obj w1,
     init_services w = (Ok (), w1)
     ∧ rag_service w1 = Some obj
     ∧ crm_service w1 = crm_service w
     ∧ constructed w1 = (if is_not_None (rag_service w)
                        then constructed w else S (constructed w))
     ∧ (run_schedule RAG schedule (arrivals n, w1)).2 = w1
     ∧ ∀ r, Done r ∈ (run_schedule RAG schedule (arrivals n, w1)).1 → r = Some obj)
  ∧ (∀ e, rag_service w = None →
       constructor_fault w (constructor_runs w) = Some e →
       ∃ w1,
         init_services w = (Raise e, w1)
         ∧ rag_service w1 = None
         ∧ crm_service w1 = crm_service w
         ∧ constructed w1 = constructed w).
Proof.
  split.
  - intros Hbuilds.
    assert (∃ obj w1, init_services w = (Ok (), w1)
                      ∧ rag_service w1 = Some obj
                      ∧ crm_service w1 = crm_service w
                      ∧ constructed w1
                        = (if is_not_None (rag_service w)
                         then constructed w else S (constructed w)))
      as (obj & w1 & Hinit & Hrag & Hcrm & Hbuilt).
    { destruct w as [? ? ? ? ? ? ? ? ? [rag|] crm ? fault runs].
      - eexists _, _. (split; [reflexivity|]); by repeat split.
      - specialize (Hbuilds eq_refl). simpl in Hbuilds.
        cbv [init_services get_rag_service get_service construct load store].
        run_M. simpl. rewrite Hbuilds.
        eexists _, _. (split; [reflexivity|]); by repeat split. }
    exists obj, w1. do 4 (split; [done|]).
    assert (Hload : load RAG w1 = (Ok (Some obj), w1))
      by (unfold load; by rewrite Hrag).
    destruct (loaded_schedule RAG obj schedule (arrivals n) w1 Hload) as [Hw Hcs].
    { unfold arrivals. apply Forall_replicate. by left. }
    split; [done|]. intros r Hr. rewrite Forall_forall in Hcs.
    destruct (Hcs _ Hr) as [? | [? | ?]]; by simplify_eq.
  - intros e Hnone Hfault.
    destruct w as [? ? ? ? ? ? ? ? ? rag crm ? fault runs]. simpl in *. subst rag.
    cbv [init_services get_rag_service get_service construct load store].
    run_M. simpl. rewrite Hfault.
    eexists. split; [reflexivity|]. by repeat split.
Qed.

Lemma init_services_preloads_rag_witness :
  ∃ obj w1,
    init_services quiet_world = (Ok (), w1)
    ∧ rag_service w1 = Some obj
    ∧ Some 0%nat = Some obj.
Proof.
  destruct (init_services_preloads_rag 2 [0; 1; 0]%nat quiet_world)
    as [Hok _].
  destruct (Hok ltac:(reflexivity))
    as (obj & w1 & Hinit & Hrag & _ & _ & _ & Hdone).
  exists obj, w1. split; [exact Hinit|]. split; [exact Hrag|].
  apply Hdone.
  assert (w1 = set_services (Some 0%nat) None 1
                 (set_constructor_runs 1 quiet_world)) as -> by
    (vm_compute in Hinit; by simplify_eq).
  vm_compute. apply list_elem_of_here.
Defined.

Lemma loaded_singleton_is_stable_witness :
  ∃ w1, init_services quiet_world = (Ok (), w1)
        ∧ (run_schedule RAG [0; 1; 0; 1; 1; 0]%nat (arrivals 2, w1)).2 = w1.
Proof.
  eexists. split; [reflexivity|].
  eapply (loaded_singleton_is_stable RAG 0%nat 2 [0; 1; 0; 1; 1; 0]%nat).
  reflexivity.
Defined.

Lemma sum_list_insert (f : caller → nat) (cs : list caller) (i : nat)
    (c c' : caller) :
  cs !! i = Some c →
  (sum_list (f <$> <[i := c']> cs) + f c = sum_list (f <$> cs) + f c')%nat.
Proof.
  revert i. induction cs as [|x cs IH]; intros i Hi; [done|].
  destruct i as [|i]; simpl in Hi.
  - simplify_eq. change (<[0%nat := c']> (c :: cs)) with (c' :: cs).
    rewrite !fmap_cons. simpl. lia.
  - change (<[S i := c']> (x :: cs)) with (x :: <[i := c']> cs).
    rewrite !fmap_cons. simpl. specialize (IH i Hi). lia.
Qed.

(** One step of a caller, whatever the global holds: an object is built
    only by a caller leaving the point before the constructor; the global,
    once set, stays set; a caller returns what the global holds. *)
Lemma caller_step_accounts (g : singleton) (c c' : caller) (w w' : world) :
  caller_step g c w = (Ok c', w') →
  (constructed w' + before_build c' ≤ constructed w + before_build c)%nat
  ∧ (constructed w ≤ constructed w')%nat
  ∧ (is_Some (global g w) → is_Some (global g w'))
  ∧ (early c ∨ is_Some (global g w) → early c' ∨ is_Some (global g w'))
  ∧ (∀ r, c' = Done r → c = Done r ∨ c = AtReturn ∧ r = global g w).
Proof.
  intros Hstep. destruct w as [? ? ? ? ? ? ? ? ? rag crm ? fault runs].
  destruct c, g, rag, crm; cbv in Hstep; try destruct (fault runs);
    simplify_eq; simpl;
    repeat split; try lia; try done;
    try (intros [[]|[? ?]]; simplify_eq; by eauto);
    try (intros; simplify_eq; by eauto).
Qed.

Lemma schedule_accounts (g : singleton) (schedule : list nat) :
  ∀ (cs : list caller) (w : world),
    let st := run_schedule g schedule (cs, w) in
    (Forall early cs ∨ is_Some (global g w)) →
    Forall (λ c, ∀ r, c = Done r → is_Some r) cs →
    (constructed st.2 + sum_list (before_build <$> st.1)
     ≤ constructed w + sum_list (before_build <$> cs))%nat
    ∧ (constructed w ≤ constructed st.2)%nat
    ∧ Forall (λ c, ∀ r, c = Done r → is_Some r) st.1.
Proof.
  induction schedule as [|i schedule IH]; intros cs w st Hearly Hdone.
  - subst st. simpl. by repeat split.
  - subst st. unfold run_schedule. cbn [foldl]. fold (run_schedule g schedule).
    destruct (sched_step_moves g i cs w) as [-> | (c & c' & w' & Hc & Hstep & ->)];
      [by apply IH|].
    destruct (caller_step_accounts g c c' w w' Hstep)
      as (Hsum & Hmono & Hset & Hearly' & Hret).
    pose proof (sum_list_insert before_build cs i c c' Hc) as Hins.
    assert (Hc_in : c ∈ cs) by (by eapply list_elem_of_lookup_2).
    assert (Hc_state : early c ∨ is_Some (global g w)).
    { destruct Hearly as [Hall | Hg]; [left | by right].
      rewrite Forall_forall in Hall. by apply Hall. }
    destruct (IH (<[i := c']> cs) w') as (IHsum & IHmono & IHdone).
    + destruct (Hearly' Hc_state) as [Hc' | Hg']; [|by right].
      destruct Hearly as [Hall | Hg]; [left; by apply Forall_insert|].
      right. by apply Hset.
    + apply Forall_insert; [done|]. intros r ->.
      destruct (Hret r eq_refl) as [-> | [-> ->]].
      * rewrite Forall_forall in Hdone. by apply (Hdone _ Hc_in).
      * destruct Hc_state as [[] | Hg]. done.
    + unfold run_schedule in *. repeat split; [lia | lia | done].
Qed.

(** Callers of [get_rag_service] (or [get_crm_service]) arriving together
    on any world, under every schedule: the number of objects built never
    goes down and goes up by at most one per caller, and a caller that has
    returned has returned an object, never [None]. *)
Theorem concurrent_callers_build_at_most_one_each (g : singleton) (n : nat)
    (schedule : list nat) (w : world) :
  let st := run_schedule g schedule (arrivals n, w) in
  (constructed w ≤ constructed st.2 ≤ constructed w + n)%nat
  ∧ ∀ r, Done r ∈ st.1 → is_Some r.
Proof.
  intros st.
  destruct (schedule_accounts g schedule (arrivals n) w) as (Hsum & Hmono & Hdone).
  { left. unfold arrivals. by apply Forall_replicate. }
  { unfold arrivals. apply Forall_replicate. by intros r. }
  assert (Hn : sum_list (before_build <$> arrivals n) = n).
  { unfold arrivals. clear. induction n as [|n IHn]; [done|].
    change (replicate (S n) AtTest) with (AtTest :: replicate n AtTest).
    rewrite fmap_cons. simpl. by rewrite IHn. }
  rewrite Hn in Hsum. subst st. split; [lia|].
  intros r Hr. rewrite Forall_forall in Hdone. by apply (Hdone _ Hr).
Qed.

Lemma concurrent_callers_build_at_most_one_each_witness :
  (0 ≤ constructed
         (run_schedule RAG [0; 1; 0; 0; 0; 1; 1; 1]%nat (arrivals 2, quiet_world)).2
     ≤ 2)%nat
  ∧ is_Some (Some 1%nat).
Proof.
  destruct (concurrent_callers_build_at_most_one_each RAG 2
              [0; 1; 0; 0; 0; 1; 1; 1]%nat quiet_world) as [Hbound Hdone].
  split; [exact Hbound|].
  apply Hdone. vm_compute. apply list_elem_of_further, list_elem_of_here.
Defined.

(** ** The [/api/tts] route *)


(** [/api/tts] answers on every world and every request body, and never
    lets an exception out.  When the body is a JSON object whose ['text']
    is missing or false (the empty string, [null], 0, an empty list), it
    answers 400 without calling the TTS backend. *)
Theorem text_to_speech_always_answers (py_str : json → string)
    (cfg : ServiceConfig) (temp_dir : string) (body : result json) (w : world) :
  ∃ resp w',
    text_to_speech py_str cfg temp_dir body w = (Ok resp, w')
    ∧ ∀ d, body = Ok (JObj d) →
           py_truthy (default (JStr "") (d !! "text")) = false →
           resp = JsonResponse (JObj {[ "error" := JStr "文字內容不能為空" ]}) 400
           ∧ w' = w.
Proof.
  unfold text_to_speech.
  match goal with
  | |- context [try_except ?b ?h] =>
      destruct (try_except_returns b h w) as (resp & w' & H)
  end.
  { intros e w1. destruct (contains _ _); by eauto. }
  exists resp, w'. split; [exact H|].
  intros d -> Htext. revert H. unfold try_except. run_M.
  cbn [py_get_default py_get]. rewrite Htext. cbn [negb].
  intros; by simplify_eq.
Qed.

Lemma text_to_speech_always_answers_witness :
  ∃ w',
    text_to_speech str_of_string default_config "/tmp/tts_cache"
      (Ok (JObj {[ "text" := JStr "" ]})) quiet_world
    = (Ok (JsonResponse (JObj {[ "error" := JStr "文字內容不能為空" ]}) 400), w')
    ∧ w' = quiet_world.
Proof.
  destruct (text_to_speech_always_answers str_of_string default_config
              "/tmp/tts_cache" (Ok (JObj {[ "text" := JStr "" ]})) quiet_world)
    as (resp & w' & Hrun & Hempty).
  destruct (Hempty {[ "text" := JStr "" ]} eq_refl eq_refl) as [-> ->].
  by exists quiet_world.
Defined.





(** ** Failures of [get_embeddings] *)

Lemma append_empty (s : string) : s +:+ "" = s.
Proof.
  induction s as [|c s IH]; [done|].
  change (String c s +:+ "") with (String c (s +:+ "")). by rewrite IH.
Qed.

(** [get_embeddings]:
    - on an empty list of texts raises IndexError without any network
      call;
    - otherwise makes one POST, whose ['input'] is the text itself for one
      text and the list for several, and then: a [requests] exception (from
      the call or from decoding the body) is replaced by the plain
      ['Embedding服務暫時不可用'] exception, any other exception is raised
      as it is; a status other than 200 raises the service error naming
      the status; a 200 with a JSON object returns its ['embeddings']
      entry, the empty list when missing. *)
Theorem get_embeddings_outcomes (py_str : json → string) (service_url : string)
    (texts : list string) (model : option string) (w : world) :
  let call := EmbeddingServiceClient.get_embeddings py_str service_url texts model w in
  let w1 := after_calls 1 [] w in
  let unavailable (e : exn) :=
    if is_RequestException (exn_cls e)
    then Exception "Embedding服務暫時不可用" else e in
  match texts with
  | [] => call = (Raise (Exn E_IndexError "list index out of range" None), w)
  | first :: others =>
      let input := match others with
                   | [] => JStr first
                   | _ => JArr (JStr <$> texts)
                   end in
      match net w (net_calls w) (embeddings_request service_url model input) with
      | Raise e => call = (Raise (unavailable e), w1)
      | Ok r =>
          if bool_decide (status_code r = 200) then
            match json_body r with
            | Ok (JObj d) => call = (Ok (default (JArr []) (d !! "embeddings")), w1)
            | Ok _ => ∃ e, call = (Raise e, w1) ∧ exn_cls e = E_AttributeError
            | Raise e => call = (Raise (unavailable e), w1)
            end
          else
            ∃ detail,
              call = (Raise (Exception ("Embedding服務錯誤: "
                                        +:+ pretty (status_code r) +:+ detail)), w1)
      end
  end.
Proof.
  intros call w1 unavailable. subst call w1 unavailable.
  rewrite <- set_net_calls_after.
  destruct texts as [|first others]; [reflexivity|].
  cbv [EmbeddingServiceClient.get_embeddings requests_request embeddings_request].
  run_M.
  assert (Hin : EmbeddingServiceClient.embedding_input (first :: others)
                = Ok match others with
                     | [] => JStr first
                     | _ => JArr (JStr <$> first :: others)
                     end) by (by destruct others).
  rewrite Hin.
  destruct (net w (net_calls w) _) as [r|e];
    [|by destruct (is_RequestException (exn_cls e))].
  case_bool_decide.
  - destruct (json_body r) as [[]|e]; cbn;
      try (eexists; split; reflexivity); try reflexivity.
    by destruct (is_RequestException (exn_cls e)).
  - destruct (json_body r) as [[]|e]; cbn; try (eexists; reflexivity).
    all: exists ""; by rewrite append_empty.
Qed.

(** * The contact store *)

Ltac run_C :=
  cbv [mbind CRMService.C_bind mret CRMService.C_ret CRMService.craise
       CRMService.try_except]; cbn beta.

Lemma ticks_ticks j k s : ticks k (ticks j s) = ticks (j + k) s.
Proof. destruct s. unfold ticks. simpl. f_equal. lia. Qed.

Lemma load_contacts_gives_stored (s : CRMService.disk) :
  ∃ m k, (k ≤ 1)%nat
    ∧ CRMService._load_contacts s
      = (Ok (CRMService.ContactsData (stored s) m), ticks k s).
Proof.
  cbv [CRMService._load_contacts CRMService.json_load CRMService.now_isoformat].
  run_C. unfold stored.
  destruct s as [[[cs [m|]]|] ? ? ? ? ? ?]; simpl.
  - eexists _, 0%nat. split; [lia|]. unfold ticks. simpl.
    by rewrite Nat.add_0_r.
  - eexists _, 1%nat. split; [lia|]. unfold ticks, CRMService.tick. simpl.
    by rewrite Nat.add_1_r.
  - eexists _, 1%nat. split; [lia|]. unfold ticks, CRMService.tick. simpl.
    by rewrite Nat.add_1_r.
Qed.

Lemma py_slice_page {A} (l : list A) (limit offset : Z) :
  0 ≤ offset → 0 ≤ limit →
  CRMService.py_slice l offset (offset + limit)
  = take (Z.to_nat limit) (drop (Z.to_nat offset) l).
Proof.
  intros Hoff Hlim. unfold CRMService.py_slice.
  rewrite !bool_decide_false by lia.
  destruct (decide (Z.of_nat (length l) ≤ offset)) as [Hout|Hin].
  - rewrite !drop_ge by lia. by rewrite !take_nil.
  - replace (Z.min offset (Z.of_nat (length l))) with offset by lia.
    destruct (decide (offset + limit ≤ Z.of_nat (length l))) as [Hfit|Hover].
    + do 2 f_equal. lia.
    + rewrite !take_ge; [done | |]; rewrite length_drop; lia.
Qed.

Lemma py_slice_length {A} (l : list A) (limit offset : Z) :
  0 ≤ limit →
  Z.of_nat (length (CRMService.py_slice l offset (offset + limit))) ≤ limit.
Proof.
  intros Hlim. unfold CRMService.py_slice.
  rewrite length_take, length_drop.
  repeat case_bool_decide; lia.
Qed.

(** [list_contacts] never raises and leaves the file as it is.  Its
    ['total'] is the number of contacts stored (0 when the file cannot be
    read) and its page is the Python slice [offset : offset + limit] of
    them.  For [limit >= 0] the page holds at most [limit] contacts,
    whatever the offset, negative ones included; for [offset >= 0] as well
    it is the [limit] contacts after the first [offset], so that a page
    followed by what comes after it is everything from its offset on. *)
Theorem list_contacts_pages (limit offset : Z) (s : CRMService.disk) :
  ∃ page k,
    CRMService.list_contacts limit offset s
      = (Ok (CRMService.ContactPage page (Z.of_nat (length (stored s))) limit offset),
         ticks k s)
    ∧ page = CRMService.py_slice (stored s) offset (offset + limit)
    ∧ (0 ≤ limit → Z.of_nat (length page) ≤ limit)
    ∧ (0 ≤ offset → 0 ≤ limit →
       page = take (Z.to_nat limit) (drop (Z.to_nat offset) (stored s))
       ∧ page ++ drop (Z.to_nat (offset + limit)) (stored s)
         = drop (Z.to_nat offset) (stored s)).
Proof.
  destruct (load_contacts_gives_stored s) as (m & k & Hk & Hload).
  exists (CRMService.py_slice (stored s) offset (offset + limit)), k.
  split; [|split; [done|split]].
  - unfold CRMService.list_contacts. run_C. by rewrite Hload.
  - intros Hlim. by apply py_slice_length.
  - intros Hoff Hlim. rewrite py_slice_page by done. split; [done|].
    replace (Z.to_nat (offset + limit)) with (Z.to_nat offset + Z.to_nat limit)%nat
      by lia.
    rewrite <- drop_drop. apply take_drop.
Qed.

Lemma list_contacts_pages_witness :
  ∃ page k,
    CRMService.list_contacts 2 1 three_contacts
      = (Ok (CRMService.ContactPage page 3 2 1), ticks k three_contacts)
    ∧ page = [contact_named "contact_bbbbbbbb" "Bob";
              contact_named "contact_cccccccc" "Cid"].
Proof.
  destruct (list_contacts_pages 2 1 three_contacts)
    as (page & k & Hrun & _ & _ & Hpage).
  exists page, k. split; [exact Hrun|].
  destruct Hpage as [-> _]; [lia | lia | reflexivity].
Defined.

Lemma save_contacts_writes (data : CRMService.contacts_data) (s : CRMService.disk) :
  CRMService._save_contacts data s
  = if CRMService.file_writable s then
      match next_dump s with
      | None =>
          (Ok (),
           with_file
             (CRMService.ContactsDoc (Some (CRMService.contacts data))
                (Some (<["last_updated" := JStr (CRMService.iso_local s (CRMService.clock s))]>
                         (CRMService.metadata data))))
             (ticks 1 s))
      | Some e => (Raise e, dumped None (ticks 1 s))
      end
    else (Raise (Exn E_OSError "cannot write contacts.json" None), ticks 1 s).
Proof.
  cbv [CRMService._save_contacts CRMService.json_dump CRMService.now_isoformat].
  run_C. unfold next_dump.
  destruct s as [? [] ? ? ? ? ? fault n]; simpl; [destruct (fault n)|];
    unfold with_file, dumped, ticks, CRMService.tick; simpl;
    by rewrite Nat.add_1_r.
Qed.

Lemma filter_shorter {A} (p : A → bool) (l : list A) :
  (length (List.filter (λ x, negb (p x)) l) ≤ length l)%nat
  ∧ ((length (List.filter (λ x, negb (p x)) l) < length l)%nat ↔ existsb p l = true).
Proof.
  induction l as [|x l [IHle IHlt]]; simpl; [split; [lia|]; split; [lia|done]|].
  destruct (p x); simpl.
  - split; [lia|]. split; [done|lia].
  - split; [lia|]. rewrite <- IHlt. lia.
Qed.

Lemma filter_keeps_none {A} (p : A → bool) (l : list A) :
  forallb (λ x, negb (p x)) (List.filter (λ x, negb (p x)) l) = true.
Proof.
  induction l as [|x l IH]; [done|]. simpl.
  destruct (p x) eqn:Hp; simpl; [done|]. by rewrite Hp.
Qed.

(** What [delete_contact] computes. *)
Lemma delete_contact_run (contact_id : string) (s : CRMService.disk) :
  ∃ m k,
    CRMService.delete_contact contact_id s
    = if existsb (CRMService.has_id contact_id) (stored s) then
        if CRMService.file_writable s then
          match next_dump s with
          | None =>
              (Ok true,
               with_file
                 (CRMService.ContactsDoc
                    (Some (List.filter (λ c, negb (CRMService.has_id contact_id c))
                             (stored s)))
                    (Some m))
                 (ticks k s))
          | Some _ => (Ok false, dumped None (ticks k s))
          end
        else (Ok false, ticks k s)
      else (Ok false, ticks k s).
Proof.
  destruct (load_contacts_gives_stored s) as (m & k & Hk & Hload).
  unfold CRMService.delete_contact. run_C. rewrite Hload.
  cbn [CRMService.contacts CRMService.metadata].
  destruct (filter_shorter (CRMService.has_id contact_id) (stored s)) as [_ Hlt].
  destruct (existsb (CRMService.has_id contact_id) (stored s)) eqn:Hex.
  - rewrite bool_decide_true by (by apply Hlt).
    rewrite save_contacts_writes.
    replace (CRMService.file_writable (ticks k s)) with (CRMService.file_writable s)
      by done.
    change (next_dump (ticks k s)) with (next_dump s).
    destruct (CRMService.file_writable s) eqn:Hw; simpl.
    + destruct (next_dump s).
      * exists m, (k + 1)%nat. by rewrite ticks_ticks.
      * eexists _, (k + 1)%nat. by rewrite ticks_ticks.
    + exists m, (k + 1)%nat. by rewrite ticks_ticks.
  - rewrite bool_decide_false; [|intros H; apply Hlt in H; done].
    simpl. by exists m, k.
Qed.

(** [delete_contact] never raises.  It answers [True] exactly when some
    stored contact has the id, the file can be opened for writing and the
    dump completes; the store then holds the contacts with another id, in
    their order, and none with the id.  With no contact of the id, or a
    file that cannot be opened, it answers [False] and the file is as it
    was.  When a contact has the id and the dump fails in the opened file,
    it answers [False] and the file no longer decodes: every contact is
    lost. *)
Theorem delete_contact_removes (contact_id : string) (s : CRMService.disk) :
  ∃ s',
    CRMService.delete_contact contact_id s
      = (Ok (existsb (CRMService.has_id contact_id) (stored s)
             && CRMService.file_writable s && dump_completes s), s')
    ∧ (existsb (CRMService.has_id contact_id) (stored s)
       && CRMService.file_writable s && dump_completes s = true →
       stored s' = List.filter (λ c, negb (CRMService.has_id contact_id c)) (stored s)
       ∧ forallb (λ c, negb (CRMService.has_id contact_id c)) (stored s') = true)
    ∧ (existsb (CRMService.has_id contact_id) (stored s)
       && CRMService.file_writable s = false →
       CRMService.contacts_file s' = CRMService.contacts_file s)
    ∧ (existsb (CRMService.has_id contact_id) (stored s)
       && CRMService.file_writable s = true →
       dump_completes s = false →
       CRMService.contacts_file s' = None).
Proof.
  destruct (delete_contact_run contact_id s) as (m & k & ->).
  unfold dump_completes.
  destruct (existsb (CRMService.has_id contact_id) (stored s));
    destruct (CRMService.file_writable s); destruct (next_dump s); simpl;
    eexists; (split; [reflexivity|]); repeat split; try done.
  apply filter_keeps_none.
Qed.

Lemma delete_contact_removes_witness :
  ∃ s',
    CRMService.delete_contact "contact_bbbbbbbb" three_contacts = (Ok true, s')
    ∧ stored s' = [contact_named "contact_aaaaaaaa" "Ann";
                   contact_named "contact_cccccccc" "Cid"].
Proof.
  destruct (delete_contact_removes "contact_bbbbbbbb" three_contacts)
    as (s' & Hrun & Hyes & _).
  exists s'. split; [exact Hrun|].
  destruct (Hyes eq_refl) as [-> _]. reflexivity.
Defined.

(** What [create_contact] computes: [s1] is the store before the write,
    with one UUID drawn and the clock read. *)
Lemma create_contact_run (contact_data : gmap string json) (s : CRMService.disk) :
  ∃ m s1,
    CRMService.create_contact contact_data s
    = (if CRMService.file_writable s then
         match next_dump s with
         | None =>
             (Ok (fresh_contact contact_data s),
              with_file (CRMService.ContactsDoc
                           (Some (stored s
                                  ++ [CRMService.to_dict
                                        (fresh_contact contact_data s)]))
                           (Some m)) s1)
         | Some e => (Raise e, dumped None s1)
         end
       else (Raise (Exn E_OSError "cannot write contacts.json" None), s1))
    ∧ CRMService.contacts_file s1 = CRMService.contacts_file s
    ∧ CRMService.file_writable s1 = CRMService.file_writable s
    ∧ CRMService.uuids s1 = S (CRMService.uuids s)
    ∧ CRMService.dump_fault s1 = CRMService.dump_fault s
    ∧ CRMService.dumps s1 = CRMService.dumps s.
Proof.
  cbv [CRMService.create_contact CRMService.uuid4_hex8 CRMService.now_utc].
  run_C.
  match goal with
  | |- context [CRMService._load_contacts ?s1] =>
      destruct (load_contacts_gives_stored s1) as (m & k & Hk & Hload);
      rewrite Hload
  end.
  rewrite save_contacts_writes. cbn [CRMService.contacts CRMService.metadata].
  match goal with
  | |- context [CRMService.file_writable ?x] =>
      replace (CRMService.file_writable x) with (CRMService.file_writable s)
        by (by destruct s)
  end.
  match goal with
  | |- context [next_dump ?x] =>
      replace (next_dump x) with (next_dump s) by (by destruct s)
  end.
  destruct (CRMService.file_writable s); [destruct (next_dump s)|].
  - exists m. eexists. (split; [by destruct s|]); by destruct s.
  - eexists _, _. (split; [by destruct s|]); by destruct s.
  - exists m. eexists. (split; [by destruct s|]); by destruct s.
Qed.

(** [create_contact] draws one UUID and names the contact ['contact_']
    followed by the first eight characters of its hex form.  When the file
    can be opened for writing and the dump completes, it returns the
    contact: every entry the request can set is the request's (the empty
    string for a missing one), the rest is the constructor's; the store
    then holds the contacts it held (none, when the file could not be
    read) followed by the new contact's dictionary.  When the file cannot
    be opened it raises and leaves the file as it was.  When the dump
    fails in the opened file it raises that failure, and the file no
    longer decodes. *)
Theorem create_contact_appends (contact_data : gmap string json)
    (s : CRMService.disk) :
  let new_id := "contact_" +:+ String.substring 0 8
                   (CRMService.uuid_hex s (CRMService.uuids s)) in
  (CRMService.file_writable s = true →
   next_dump s = None →
   ∃ c s',
     CRMService.create_contact contact_data s = (Ok c, s')
     ∧ CRMService.contact_id c = JStr new_id
     ∧ CRMService.name c = default (JStr "") (contact_data !! "name")
     ∧ CRMService.company c = default (JStr "") (contact_data !! "company")
     ∧ CRMService.position c = default (JStr "") (contact_data !! "position")
     ∧ CRMService.email c = default (JStr "") (contact_data !! "email")
     ∧ CRMService.phone c = default (JStr "") (contact_data !! "phone")
     ∧ CRMService.address c = default (JStr "") (contact_data !! "address")
     ∧ CRMService.notes c = default (JStr "") (contact_data !! "notes")
     ∧ CRMService.source c = JStr "business_card_scan"
     ∧ CRMService.tags c = JArr []
     ∧ CRMService.catalog_sent c = JBool false
     ∧ CRMService.catalog_sent_at c = None
     ∧ CRMService.created_at c = CRMService.iso_utc s (CRMService.clock s)
     ∧ CRMService.updated_at c = CRMService.iso_utc s (S (CRMService.clock s))
     ∧ stored s' = stored s ++ [CRMService.to_dict c]
     ∧ CRMService.uuids s' = S (CRMService.uuids s))
  ∧ (CRMService.file_writable s = false →
     ∃ e s',
       CRMService.create_contact contact_data s = (Raise e, s')
       ∧ CRMService.contacts_file s' = CRMService.contacts_file s)
  ∧ (CRMService.file_writable s = true →
     ∀ e, next_dump s = Some e →
       ∃ s',
         CRMService.create_contact contact_data s = (Raise e, s')
         ∧ CRMService.contacts_file s' = None).
Proof.
  intros new_id. subst new_id.
  destruct (create_contact_run contact_data s)
    as (m & s1 & Hrun & Hfile & _ & Huuids & _ & _).
  split; [|split].
  - intros Hw Hdump. rewrite Hw, Hdump in Hrun.
    eexists _, _. split; [exact Hrun|]. by repeat split.
  - intros Hw. rewrite Hw in Hrun. eexists _, _. split; [exact Hrun|]. done.
  - intros Hw e Hdump. rewrite Hw, Hdump in Hrun.
    eexists. split; [exact Hrun|]. done.
Qed.

Lemma create_contact_appends_witness :
  ∃ c s',
    CRMService.create_contact {[ "name" := JStr "Dan" ]} three_contacts = (Ok c, s')
    ∧ CRMService.contact_id c = JStr "contact_01234567"
    ∧ CRMService.name c = JStr "Dan"
    ∧ length (stored s') = 4%nat.
Proof.
  destruct (create_contact_appends {[ "name" := JStr "Dan" ]} three_contacts)
    as [Hok _].
  destruct (Hok eq_refl eq_refl) as (c & s' & Hrun & Hid & Hname & Hrest).
  exists c, s'. split; [exact Hrun|]. split; [exact Hid|]. split; [exact Hname|].
  destruct Hrest as (_ & _ & _ & _ & _ & _ & _ & _ & _ & _ & _ & _ & Hstored & _).
  rewrite Hstored, length_app. reflexivity.
Defined.

Lemma has_own_id (contact_id : string) (c : CRMService.Contact) :
  CRMService.contact_id c = JStr contact_id →
  CRMService.has_id contact_id (CRMService.to_dict c) = true.
Proof.
  intros Hid. unfold CRMService.has_id, CRMService.to_dict.
  cbn [list_to_map foldr fst snd]. rewrite lookup_insert_eq, Hid. simpl.
  by rewrite bool_decide_true.
Qed.

Lemma filter_fresh {A} (p : A → bool) (l : list A) (x : A) :
  forallb (λ y, negb (p y)) l = true →
  p x = true →
  List.filter (λ y, negb (p y)) (l ++ [x]) = l.
Proof.
  intros Hl Hx. induction l as [|y l IH]; simpl in *.
  - by rewrite Hx.
  - apply andb_prop in Hl as [Hy Hl]. rewrite Hy. by rewrite IH.
Qed.

(** Creating a contact and then deleting it by the id that came back
    restores the list of contacts, when the file can be opened for
    writing, both dumps complete and no contact stored before had that
    id. *)
Theorem create_then_delete_restores (contact_data : gmap string json)
    (s : CRMService.disk) :
  let new_id := "contact_" +:+ String.substring 0 8
                   (CRMService.uuid_hex s (CRMService.uuids s)) in
  CRMService.file_writable s = true →
  CRMService.dump_fault s (CRMService.dumps s) = None →
  CRMService.dump_fault s (S (CRMService.dumps s)) = None →
  forallb (λ c, negb (CRMService.has_id new_id c)) (stored s) = true →
  ∃ c s1 s',
    CRMService.create_contact contact_data s = (Ok c, s1)
    ∧ CRMService.contact_id c = JStr new_id
    ∧ CRMService.delete_contact new_id s1 = (Ok true, s')
    ∧ stored s' = stored s.
Proof.
  intros new_id Hw Hdump1 Hdump2 Hfresh. subst new_id.
  destruct (create_contact_run contact_data s)
    as (m & s1 & Hrun & _ & Hw1 & _ & Hfault & Hdumps).
  unfold next_dump in Hrun. rewrite Hw, Hdump1 in Hrun.
  set (c := fresh_contact contact_data s) in *.
  assert (Hid : CRMService.contact_id c
                = JStr ("contact_" +:+ String.substring 0 8
                          (CRMService.uuid_hex s (CRMService.uuids s))))
    by reflexivity.
  set (new_id := "contact_" +:+ _) in *.
  set (s2 := with_file (CRMService.ContactsDoc
                          (Some (stored s ++ [CRMService.to_dict c])) (Some m)) s1)
    in Hrun.
  destruct (delete_contact_run new_id s2) as (m' & k & Hdel).
  assert (Hstored : stored s2 = stored s ++ [CRMService.to_dict c]) by done.
  assert (Hmatch : existsb (CRMService.has_id new_id) (stored s2) = true).
  { rewrite Hstored, existsb_app. simpl.
    by rewrite (has_own_id new_id c Hid), orb_true_r. }
  assert (Hw2 : CRMService.file_writable s2 = true) by (by rewrite <- Hw, <- Hw1).
  assert (Hnext : next_dump s2 = None).
  { unfold next_dump, s2, with_file, dumped. simpl. by rewrite Hfault, Hdumps. }
  rewrite Hmatch, Hw2, Hnext in Hdel.
  eexists c, s2, _. split; [exact Hrun|]. split; [exact Hid|].
  split; [exact Hdel|].
  rewrite Hstored. change (stored (with_file ?d ?x)) with
    (default [] (CRMService.doc_contacts d)). simpl.
  apply filter_fresh; [exact Hfresh | by apply has_own_id].
Qed.

Lemma create_then_delete_restores_witness :
  ∃ c s1 s',
    CRMService.create_contact {[ "name" := JStr "Dan" ]} three_contacts = (Ok c, s1)
    ∧ CRMService.contact_id c = JStr "contact_01234567"
    ∧ CRMService.delete_contact "contact_01234567" s1 = (Ok true, s')
    ∧ stored s' = stored three_contacts.
Proof.
  apply (create_then_delete_restores {[ "name" := JStr "Dan" ]} three_contacts);
    reflexivity.
Defined.




(** ** Fetching and updating a contact *)

Lemma split_at_id_first (contact_id : string)
    (before after : list (gmap string json)) (contact_data : gmap string json) :
  forallb (λ c, negb (CRMService.has_id contact_id c)) before = true →
  CRMService.has_id contact_id contact_data = true →
  CRMService.split_at_id contact_id (before ++ contact_data :: after)
  = Some (before, contact_data, after).
Proof.
  intros Hbefore Hhas. induction before as [|c before IH]; simpl in *.
  - by rewrite Hhas.
  - apply andb_prop in Hbefore as [Hc Hbefore].
    apply negb_true_iff in Hc. rewrite Hc. by rewrite IH.
Qed.

Lemma split_at_id_none (contact_id : string) (l : list (gmap string json)) :
  existsb (CRMService.has_id contact_id) l = false →
  CRMService.split_at_id contact_id l = None.
Proof.
  induction l as [|c l IH]; simpl; [done|].
  intros H. apply orb_false_elim in H as [Hc Hl]. rewrite Hc. by rewrite IH.
Qed.

Lemma parse_timestamp_runs (fromisoformat : string → result string)
    (value : json) (s : CRMService.disk) :
  ∃ r, CRMService.parse_timestamp fromisoformat value s = (r, s).
Proof. destruct value; simpl; eauto. Qed.

(** [from_dict] reads the clock and may draw a UUID, and leaves the file
    alone; without a ['name'] it raises, and the contact it returns has the
    stored name and, when that is not false, the stored id. *)
Lemma from_dict_runs (fromisoformat : string → result string)
    (data : gmap string json) (s : CRMService.disk) :
  ∃ r s',
    CRMService.from_dict fromisoformat data s = (r, s')
    ∧ CRMService.contacts_file s' = CRMService.contacts_file s
    ∧ (data !! "name" = None → ∃ e, r = Raise e)
    ∧ (∀ c, r = Ok c →
         data !! "name" = Some (CRMService.name c)
         ∧ (∀ v, data !! "contact_id" = Some v → py_truthy v = true →
              CRMService.contact_id c = v)).
Proof.
  unfold CRMService.from_dict.
  cbv [CRMService.uuid4_hex8 CRMService.now_utc]. run_C.
  destruct (data !! "name") as [n|] eqn:Hname;
    [|eexists _, _; split; [reflexivity|]; split; [done|];
      split; [by eauto|]; by intros ? [=]].
  destruct (py_truthy (default JNull (data !! "contact_id"))) eqn:Htruthy.
  all: repeat first
    [ match goal with
      | |- context [CRMService.parse_timestamp ?f ?v ?x] =>
          destruct (parse_timestamp_runs f v x) as [[?|?] ->]; cbn beta iota
      end
    | match goal with
      | |- context [match ?d !! ?k with _ => _ end] =>
          destruct (d !! k) as [?|] eqn:?; cbn beta iota
      | |- context [if py_truthy ?v then _ else _] =>
          destruct (py_truthy v) eqn:?; cbn beta iota
      end ].
  all: eexists _, _; (split; [reflexivity|]); (split; [done|]);
    (split; [done|]).
  all: try by intros ? [=].
  all: intros c [= <-]; (split; [done|]); simpl.
  all: intros v Hv Ht; rewrite Hv in Htruthy; simpl in Htruthy;
    rewrite ?Hv; simpl; congruence.
Qed.

Lemma has_id_lookup (contact_id : string) (contact_data : gmap string json) :
  CRMService.has_id contact_id contact_data = true →
  contact_data !! "contact_id" = Some (JStr contact_id).
Proof.
  unfold CRMService.has_id.
  destruct (contact_data !! "contact_id") as [[]|]; simpl; try done.
  intros H. apply bool_decide_eq_true in H. by subst.
Qed.

(** [get_contact] never raises and never changes the file.  It answers
    [None] when no stored contact has the id, and also when the first
    stored contact with the id has no ['name'], although it is stored; a
    contact it returns carries the name of the first stored contact with
    the id, and the id asked for. *)
Theorem get_contact_finds_first (fromisoformat : string → result string)
    (contact_id : string) (s : CRMService.disk) :
  ∃ r s',
    CRMService.get_contact fromisoformat contact_id s = (Ok r, s')
    ∧ CRMService.contacts_file s' = CRMService.contacts_file s
    ∧ (existsb (CRMService.has_id contact_id) (stored s) = false → r = None)
    ∧ (∀ before contact_data after,
         stored s = before ++ contact_data :: after →
         forallb (λ c, negb (CRMService.has_id contact_id c)) before = true →
         CRMService.has_id contact_id contact_data = true →
         (contact_data !! "name" = None → r = None)
         ∧ (∀ c, r = Some c →
              contact_data !! "name" = Some (CRMService.name c)
              ∧ (contact_id ≠ "" → CRMService.contact_id c = JStr contact_id))).
Proof.
  destruct (load_contacts_gives_stored s) as (m & k & _ & Hload).
  unfold CRMService.get_contact. run_C. rewrite Hload.
  cbn [CRMService.contacts].
  destruct (CRMService.split_at_id contact_id (stored s))
    as [[[before contact_data] after]|] eqn:Hsplit.
  - destruct (from_dict_runs fromisoformat contact_data (ticks k s))
      as (r & s' & -> & Hfile & Hnoname & Hok).
    assert (Hnone : existsb (CRMService.has_id contact_id) (stored s) = false →
                    False).
    { intros H. apply split_at_id_none in H. congruence. }
    destruct r as [c|e].
    + eexists _, _. split; [reflexivity|]. split; [done|].
      split; [by intros ?%Hnone|].
      intros before' contact_data' after' Hstored Hbefore Hhas.
      rewrite Hstored, (split_at_id_first _ _ _ _ Hbefore Hhas) in Hsplit.
      simplify_eq. destruct (Hok c eq_refl) as [Hname Hid].
      split; [congruence|]. intros c' [= <-]. split; [done|].
      intros Hne. apply Hid; [by apply has_id_lookup|].
      simpl. by rewrite bool_decide_false.
    + eexists _, _. split; [reflexivity|]. split; [done|]. split; [done|].
      intros. split; [done|]. by intros ? [=].
  - eexists _, _. split; [reflexivity|]. split; [done|]. split; [done|].
    intros before contact_data after Hstored Hbefore Hhas.
    rewrite Hstored, (split_at_id_first _ _ _ _ Hbefore Hhas) in Hsplit.
    done.
Qed.

Lemma get_contact_finds_first_witness :
  ∃ c s',
    CRMService.get_contact strict_fromisoformat "contact_bbbbbbbb" three_contacts
    = (Ok (Some c), s')
    ∧ CRMService.name c = JStr "Bob"
    ∧ CRMService.contact_id c = JStr "contact_bbbbbbbb".
Proof.
  destruct (get_contact_finds_first strict_fromisoformat "contact_bbbbbbbb"
              three_contacts) as (r & s' & Hrun & _ & _ & Hfound).
  destruct (Hfound [contact_named "contact_aaaaaaaa" "Ann"]
              (contact_named "contact_bbbbbbbb" "Bob")
              [contact_named "contact_cccccccc" "Cid"]
              eq_refl eq_refl eq_refl) as [_ Hsome].
  destruct r as [c|]; [|vm_compute in Hrun; discriminate].
  exists c, s'. split; [exact Hrun|].
  destruct (Hsome c eq_refl) as [Hname Hid]. split.
  - change (contact_named "contact_bbbbbbbb" "Bob" !! "name")
      with (Some (JStr "Bob")) in Hname. congruence.
  - by apply Hid.
Defined.

Lemma updated_with_keeps_id (update_data : gmap string json) (t : string)
    (contact_data : gmap string json) (v : json) :
  contact_data !! "contact_id" = Some v →
  updated_with update_data t contact_data !! "contact_id" = Some v.
Proof.
  intros Hv. unfold updated_with.
  rewrite lookup_insert_ne by done.
  rewrite lookup_union_r by apply lookup_delete_eq. done.
Qed.

(** [update_contact] never raises.  With no stored contact of the id it
    answers [None] and leaves the file alone.  Otherwise it saves before it
    converts: when the file can be opened for writing and the dump
    completes, the first stored contact with the id is replaced by the
    contact holding the entries of the update over its own, its id kept
    whatever the update says and ['updated_at'] stamped, the other contacts
    stay as they were, and this holds whatever is returned; [None] is
    returned, with the update saved, when the updated contact has no
    ['name'].  When the file cannot be opened it answers [None] and the
    file is as it was.  When the dump fails in the opened file it answers
    [None] and the file no longer decodes. *)
Theorem update_contact_saves_before_converting
    (fromisoformat : string → result string)
    (contact_id : string) (update_data : gmap string json)
    (s : CRMService.disk) :
  (existsb (CRMService.has_id contact_id) (stored s) = false →
   ∃ s',
     CRMService.update_contact fromisoformat contact_id update_data s
     = (Ok None, s')
     ∧ CRMService.contacts_file s' = CRMService.contacts_file s)
  ∧ (∀ before contact_data after,
       stored s = before ++ contact_data :: after →
       forallb (λ c, negb (CRMService.has_id contact_id c)) before = true →
       CRMService.has_id contact_id contact_data = true →
       ∃ r t s',
         CRMService.update_contact fromisoformat contact_id update_data s
         = (Ok r, s')
         ∧ (CRMService.file_writable s = true →
            dump_completes s = true →
            stored s' = before ++ updated_with update_data t contact_data :: after
            ∧ updated_with update_data t contact_data !! "contact_id"
              = Some (JStr contact_id)
            ∧ (∀ key v, key ≠ "contact_id" → key ≠ "updated_at" →
                 update_data !! key = Some v →
                 updated_with update_data t contact_data !! key = Some v)
            ∧ (updated_with update_data t contact_data !! "name" = None →
               r = None)
            ∧ (∀ c, r = Some c →
                 updated_with update_data t contact_data !! "name"
                 = Some (CRMService.name c)))
         ∧ (CRMService.file_writable s = false →
            r = None
            ∧ CRMService.contacts_file s' = CRMService.contacts_file s)
         ∧ (CRMService.file_writable s = true →
            dump_completes s = false →
            r = None
            ∧ CRMService.contacts_file s' = None)).
Proof.
  destruct (load_contacts_gives_stored s) as (m & k & _ & Hload).
  split.
  - intros Hnone. unfold CRMService.update_contact. run_C. rewrite Hload.
    cbn [CRMService.contacts]. rewrite (split_at_id_none _ _ Hnone).
    eexists. by split.
  - intros before contact_data after Hstored Hbefore Hhas.
    unfold CRMService.update_contact. run_C. rewrite Hload.
    cbn [CRMService.contacts CRMService.metadata].
    rewrite Hstored, (split_at_id_first _ _ _ _ Hbefore Hhas).
    cbv [CRMService.now_isoformat]. cbn beta iota.
    rewrite save_contacts_writes.
    cbn [CRMService.contacts CRMService.metadata].
    replace (CRMService.file_writable (CRMService.tick (ticks k s)))
      with (CRMService.file_writable s) by done.
    change (next_dump (CRMService.tick (ticks k s))) with (next_dump s).
    set (t := CRMService.iso_local (ticks k s) (CRMService.clock (ticks k s))).
    fold (updated_with update_data t contact_data).
    unfold dump_completes.
    destruct (CRMService.file_writable s) eqn:Hw; [destruct (next_dump s)|].
    + exists None, t. eexists. split; [reflexivity|].
      split; [done|]. split; [done|]. by intros _ _.
    + match goal with
      | |- context [CRMService.from_dict ?f ?d ?x] =>
          destruct (from_dict_runs f d x) as (r & s' & -> & Hfile & Hnoname & Hok)
      end.
      assert (Hkept : stored s'
                      = before ++ updated_with update_data t contact_data :: after).
      { unfold stored. by rewrite Hfile. }
      assert (Hentries : ∀ key v, key ≠ "contact_id" → key ≠ "updated_at" →
                 update_data !! key = Some v →
                 updated_with update_data t contact_data !! key = Some v).
      { intros key v Hk1 Hk2 Hv. unfold updated_with.
        rewrite lookup_insert_ne by done.
        apply lookup_union_Some_l. by rewrite lookup_delete_ne. }
      destruct r as [c|e].
      * exists (Some c), t, s'. split; [reflexivity|].
        split; [|split; [done|done]].
        intros _ _. split; [done|].
        split; [by apply updated_with_keeps_id, has_id_lookup|].
        split; [done|]. destruct (Hok c eq_refl) as [Hname _].
        split; [congruence|]. by intros c' [= <-].
      * exists None, t, s'. split; [reflexivity|].
        split; [|split; [done|done]].
        intros _ _. split; [done|].
        split; [by apply updated_with_keeps_id, has_id_lookup|].
        split; [done|]. split; [done|]. by intros ? [=].
    + exists None, t. eexists. split; [reflexivity|]. split; [done|].
      split; [|done]. intros _. by split.
Qed.

Lemma update_contact_saves_before_converting_witness :
  ∃ r t s',
    CRMService.update_contact strict_fromisoformat "contact_bbbbbbbb"
      {[ "company" := JStr "ACME"; "contact_id" := JStr "other" ]} three_contacts
    = (Ok r, s')
    ∧ stored s'
      = [contact_named "contact_aaaaaaaa" "Ann";
         updated_with {[ "company" := JStr "ACME"; "contact_id" := JStr "other" ]}
           t (contact_named "contact_bbbbbbbb" "Bob");
         contact_named "contact_cccccccc" "Cid"].
Proof.
  destruct (update_contact_saves_before_converting strict_fromisoformat
              "contact_bbbbbbbb"
              {[ "company" := JStr "ACME"; "contact_id" := JStr "other" ]}
              three_contacts) as [_ Hfound].
  destruct (Hfound [contact_named "contact_aaaaaaaa" "Ann"]
              (contact_named "contact_bbbbbbbb" "Bob")
              [contact_named "contact_cccccccc" "Cid"]
              eq_refl eq_refl eq_refl) as (r & t & s' & Hrun & Hyes & _).
  exists r, t, s'. split; [exact Hrun|].
  by destruct (Hyes eq_refl eq_refl) as [? _].
Defined.

Lemma replace_Z_app (a b : string) :
  CRMService.replace_Z (a +:+ b)
  = CRMService.replace_Z a +:+ CRMService.replace_Z b.
Proof.
  induction a as [|c a IH]; [done|].
  change (String c a +:+ b) with (String c (a +:+ b)).
  cbn [CRMService.replace_Z]. rewrite IH.
  destruct (bool_decide (String c EmptyString = "Z")); [|done].
  generalize (CRMService.replace_Z a), (CRMService.replace_Z b).
  intros x y. reflexivity.
Qed.

(** [from_dict] raises what [fromisoformat] raises on the stored
    ['created_at']. *)
Lemma from_dict_bad_created_at (fromisoformat : string → result string)
    (data : gmap string json) (n : json) (t : string) (e : exn)
    (s : CRMService.disk) :
  data !! "name" = Some n →
  data !! "created_at" = Some (JStr t) →
  fromisoformat (CRMService.replace_Z t) = Raise e →
  ∃ s', CRMService.from_dict fromisoformat data s = (Raise e, s').
Proof.
  intros Hname Hcreated Hbad. unfold CRMService.from_dict.
  cbv [CRMService.uuid4_hex8 CRMService.now_utc CRMService.parse_timestamp].
  run_C. rewrite Hname, Hcreated, Hbad.
  destruct (py_truthy _); eauto.
Qed.

(** A contact made by [create_contact] is stored but cannot be fetched,
    when [fromisoformat] rejects its timestamp followed by a second UTC
    offset: [to_dict] writes the [isoformat()] of a datetime in UTC, which
    carries its offset, followed by ['Z'], and [from_dict] turns the ['Z']
    into ['+00:00'] before parsing; [get_contact] answers [None].  Stated
    for a creation that succeeds: the file can be opened for writing and
    the dump completes. *)
Theorem created_contact_is_not_fetched
    (fromisoformat : string → result string)
    (contact_data : gmap string json) (s : CRMService.disk) (e : exn) :
  let new_id := "contact_" +:+ String.substring 0 8
                   (CRMService.uuid_hex s (CRMService.uuids s)) in
  let t := CRMService.iso_utc s (CRMService.clock s) in
  CRMService.file_writable s = true →
  next_dump s = None →
  forallb (λ c, negb (CRMService.has_id new_id c)) (stored s) = true →
  CRMService.replace_Z t = t →
  fromisoformat (t +:+ "+00:00") = Raise e →
  ∃ c s1 s',
    CRMService.create_contact contact_data s = (Ok c, s1)
    ∧ CRMService.contact_id c = JStr new_id
    ∧ existsb (CRMService.has_id new_id) (stored s1) = true
    ∧ CRMService.get_contact fromisoformat new_id s1 = (Ok None, s').
Proof.
  intros new_id t Hw Hdump Hfresh HnoZ Hbad. subst new_id t.
  destruct (create_contact_run contact_data s)
    as (m & s1 & Hrun & _ & _ & _ & _ & _).
  rewrite Hw, Hdump in Hrun.
  set (c := fresh_contact contact_data s) in *.
  assert (Hid : CRMService.contact_id c
                = JStr ("contact_" +:+ String.substring 0 8
                          (CRMService.uuid_hex s (CRMService.uuids s))))
    by reflexivity.
  assert (Hcreated : CRMService.created_at c
                     = CRMService.iso_utc s (CRMService.clock s))
    by reflexivity.
  set (new_id := "contact_" +:+ _) in *.
  set (s2 := with_file (CRMService.ContactsDoc
                          (Some (stored s ++ [CRMService.to_dict c])) (Some m)) s1)
    in Hrun.
  assert (Hstored : stored s2 = stored s ++ [CRMService.to_dict c]) by done.
  assert (Hown := has_own_id new_id c Hid).
  destruct (load_contacts_gives_stored s2) as (m' & k & _ & Hload).
  destruct (from_dict_bad_created_at fromisoformat (CRMService.to_dict c)
              (CRMService.name c) (CRMService.created_at c +:+ "Z") e
              (ticks k s2)) as [s' Hfrom].
  { done. }
  { done. }
  { rewrite replace_Z_app, Hcreated, HnoZ. exact Hbad. }
  exists c, s2. eexists. split; [exact Hrun|]. split; [exact Hid|]. split.
  - rewrite Hstored, existsb_app. simpl. by rewrite Hown, orb_true_r.
  - unfold CRMService.get_contact. run_C. rewrite Hload.
    cbn [CRMService.contacts]. rewrite Hstored.
    rewrite (split_at_id_first _ _ _ _ Hfresh Hown). by rewrite Hfrom.
Qed.

Lemma created_contact_is_not_fetched_witness :
  ∃ c s1 s',
    CRMService.create_contact {[ "name" := JStr "Dan" ]} three_contacts = (Ok c, s1)
    ∧ CRMService.contact_id c = JStr "contact_01234567"
    ∧ existsb (CRMService.has_id "contact_01234567") (stored s1) = true
    ∧ CRMService.get_contact strict_fromisoformat "contact_01234567" s1
      = (Ok None, s').
Proof.
  apply (created_contact_is_not_fetched strict_fromisoformat
           {[ "name" := JStr "Dan" ]} three_contacts
           (Exn E_ValueError "Invalid isoformat string" None));
    reflexivity.
Defined.

(** ** The API listing *)

Lemma simplified_runs (c : gmap string json) (s : CRMService.disk) :
  if listable c then
    ∃ entry, CRMService.simplified c s = (Ok entry, s) ∧ simplified_from c entry
  else ∃ e, CRMService.simplified c s = (Raise e, s).
Proof.
  unfold listable, CRMService.simplified, CRMService.getitem. run_C.
  destruct (c !! "contact_id") as [i|] eqn:Hi; cbn beta iota.
  2: { rewrite (bool_decide_false (is_Some None)) by (by intros [? ?]).
       simpl. eauto. }
  destruct (c !! "name") as [n|] eqn:Hn; cbn beta iota.
  2: { rewrite (bool_decide_false (is_Some None)) by (by intros [? ?]).
       rewrite andb_false_r. simpl. eauto. }
  destruct (c !! "created_at") as [t|] eqn:Ht; cbn beta iota.
  2: { rewrite (bool_decide_false (is_Some None)) by (by intros [? ?]).
       rewrite andb_false_r. eauto. }
  rewrite !bool_decide_true by eauto. simpl.
  eexists. split; [reflexivity|].
  repeat split; try done.
  intros key Hkey. cbn [list_to_map foldr fst snd].
  rewrite !lookup_insert_ne; [done|..];
    intros <-; apply Hkey; set_solver.
Qed.

Lemma simplified_contacts_runs (page : list (gmap string json))
    (s : CRMService.disk) :
  if forallb listable page then
    ∃ entries,
      CRMService.simplified_contacts page s = (Ok entries, s)
      ∧ Forall2 simplified_from page entries
  else ∃ e, CRMService.simplified_contacts page s = (Raise e, s).
Proof.
  induction page as [|c page IH]; simpl.
  - exists []. by split.
  - run_C. pose proof (simplified_runs c s) as Hc.
    destruct (listable c); simpl.
    + destruct Hc as (entry & -> & Hentry).
      destruct (forallb listable page).
      * destruct IH as (entries & -> & Hentries). eexists. split; [done|].
        by constructor.
      * destruct IH as (e & ->). eauto.
    + destruct Hc as (e & ->). eauto.
Qed.

(** [list_contacts_api_response] never raises and leaves the file as it
    is.  When every contact on the page has a ['contact_id'], a ['name']
    and a ['created_at'], it lists the page entry by entry, with those
    three, the ['company'] or the empty string and nothing else, and its
    ['total'] is the number of contacts stored.  When one contact on the
    page lacks one of the three, the listing is empty and the ['total'] is
    0, whatever is stored. *)
Theorem list_contacts_api_response_all_or_nothing (limit offset : Z)
    (s : CRMService.disk) :
  let page := CRMService.py_slice (stored s) offset (offset + limit) in
  ∃ r k,
    CRMService.list_contacts_api_response limit offset s = (Ok r, ticks k s)
    ∧ (forallb listable page = true →
       Forall2 simplified_from page (CRMService.api_contacts r)
       ∧ CRMService.api_total r = Z.of_nat (length (stored s)))
    ∧ (forallb listable page = false → r = CRMService.ApiPage [] 0).
Proof.
  intros page. destruct (load_contacts_gives_stored s) as (m & k & _ & Hload).
  unfold CRMService.list_contacts_api_response. run_C. rewrite Hload.
  cbn [CRMService.contacts]. fold page.
  pose proof (simplified_contacts_runs page (ticks k s)) as Hpage.
  destruct (forallb listable page).
  - destruct Hpage as (entries & -> & Hentries).
    eexists _, k. split; [reflexivity|]. split; [by intros _|done].
  - destruct Hpage as (e & ->).
    eexists _, k. split; [reflexivity|]. split; [done|by intros _].
Qed.
